(* Verification model of custom_components/olarm_sensors/olarm_api.py:
   the shared per-key rate limiter (OlarmRateLimiter), the registry of
   limiters kept on OlarmApi, the request methods that drive it, and the
   device-state decoders.

   Modelling conventions.
   - time.monotonic() readings and the limiter's float fields are exact
     integers (seconds); the float rounding of [now + backoff] is not
     modelled.
   - Python exceptions are the constructors of [exc]; a computation that
     may raise returns a [result].
   - JSON values are the [json] type: objects are association lists in
     key order (the order Python's dict iterates), numbers are integers,
     strings are byte strings with ASCII case mapping. *)

From Stdlib Require Import ZArith Ascii String List Lia.
From stdpp Require Import base gmap strings list pretty.
Import ListNotations.
Open Scope Z_scope.
Set Warnings "-register-all".

(* ------------------------------------------------------------------ *)
(** * const.py: rate-limit configuration *)

Definition API_MIN_REQUEST_GAP : Z := 2.
Definition API_BACKOFF_BASE : Z := 60.
Definition API_BACKOFF_MAX : Z := 300.
Definition API_MAX_CONSECUTIVE_429 : Z := 3.

(* ------------------------------------------------------------------ *)
(** * OlarmRateLimiter *)

Module RateLimiter.

Record limiter := mk_limiter {
  min_gap : Z;
  last_request_time : Z;
  backoff_until : Z;
  consecutive_429s : Z
}.

(** [OlarmRateLimiter.__init__] with the default [min_gap]. *)
Definition init (gap : Z) : limiter :=
  {| min_gap := gap; last_request_time := 0; backoff_until := 0;
     consecutive_429s := 0 |}.

Definition default : limiter := init API_MIN_REQUEST_GAP.

(** The [time.monotonic()] readings taken by one [wait_for_slot] call, in
    program order: [is_backed_off], [backoff_remaining] (read only while
    backed off), [now] (line 83) and the stamp stored at line 89. *)
Record wait_clock := mk_clock {
  t_is_backed_off : Z;
  t_backoff_remaining : Z;
  t_now : Z;
  t_stamp : Z
}.

(** Properties the readings of one call have: the clock does not go
    backwards and an [asyncio.sleep(d)] lasts at least [d]. *)
Definition clock_ok (s : limiter) (c : wait_clock) : Prop :=
  t_is_backed_off c <= t_backoff_remaining c <= t_now c /\ t_now c <= t_stamp c /\
  (t_is_backed_off c < backoff_until s ->
     t_backoff_remaining c + Z.max 0 (backoff_until s - t_backoff_remaining c) <= t_now c) /\
  (t_now c - last_request_time s < min_gap s ->
     t_now c + (min_gap s - (t_now c - last_request_time s)) <= t_stamp c).

(** [wait_for_slot]: whether the request may proceed, the durations passed
    to [asyncio.sleep] in order, and the limiter afterwards. *)
Definition wait_for_slot (s : limiter) (c : wait_clock) : bool * list Z * limiter :=
  if API_MAX_CONSECUTIVE_429 <=? consecutive_429s s then (false, [], s)
  else
    let backoff_sleeps :=
      if t_is_backed_off c <? backoff_until s
      then [Z.max 0 (backoff_until s - t_backoff_remaining c)] else [] in
    let elapsed := t_now c - last_request_time s in
    let gap_sleeps :=
      if elapsed <? min_gap s then [min_gap s - elapsed] else [] in
    (true, backoff_sleeps ++ gap_sleeps,
     {| min_gap := min_gap s; last_request_time := t_stamp c;
        backoff_until := backoff_until s; consecutive_429s := consecutive_429s s |}).

Definition record_success (s : limiter) : limiter :=
  {| min_gap := min_gap s; last_request_time := last_request_time s;
     backoff_until := backoff_until s; consecutive_429s := 0 |}.

(** [record_rate_limit], with [now] the [time.monotonic()] reading of line 103. *)
Definition record_rate_limit (now : Z) (s : limiter) : limiter :=
  let hits := consecutive_429s s + 1 in
  let backoff_seconds :=
    Z.min (API_BACKOFF_BASE * 2 ^ (hits - 1)) API_BACKOFF_MAX in
  {| min_gap := min_gap s; last_request_time := last_request_time s;
     backoff_until := now + backoff_seconds; consecutive_429s := hits |}.

Definition reset_cycle (s : limiter) : limiter :=
  {| min_gap := min_gap s; last_request_time := last_request_time s;
     backoff_until := backoff_until s; consecutive_429s := 0 |}.

(** The calls a shared limiter receives, in order. *)
Inductive op :=
| OpWait (c : wait_clock)
| OpSuccess
| OpRateLimit (now : Z)
| OpReset.

(** One call: what a [wait_for_slot] returns and sleeps, and the new state. *)
Definition step (s : limiter) (o : op) : option (bool * list Z) * limiter :=
  match o with
  | OpWait c => let '(b, sl, s') := wait_for_slot s c in (Some (b, sl), s')
  | OpSuccess => (None, record_success s)
  | OpRateLimit now => (None, record_rate_limit now s)
  | OpReset => (None, reset_cycle s)
  end.

Definition run (s : limiter) (ops : list op) : limiter :=
  fold_left (fun s o => snd (step s o)) ops s.

Definition resets (o : op) : bool :=
  match o with OpSuccess | OpReset => true | _ => false end.

Definition is_rate_limit (o : op) : bool :=
  match o with OpRateLimit _ => true | _ => false end.

(** Number of [record_rate_limit] calls in a trace. *)
Definition rate_limit_count (ops : list op) : nat :=
  length (List.filter is_rate_limit ops).

(** The clock reading of the last [record_rate_limit] call of a trace. *)
Fixpoint last_rate_limit_time (ops : list op) : option Z :=
  match ops with
  | [] => None
  | OpRateLimit now :: rest =>
      match last_rate_limit_time rest with Some t => Some t | None => Some now end
  | _ :: rest => last_rate_limit_time rest
  end.

End RateLimiter.

(* ------------------------------------------------------------------ *)
(** * The Python values and built-ins the module relies on *)

Module Py.

Inductive exc :=
| KeyError
| IndexError
| TypeError
| ValueError
| AttributeError
| UnboundLocalError
| OverflowError
| JSONDecodeError
| ContentTypeError   (* aiohttp: [response.json()] on a non-JSON content type *).

Global Instance exc_eq_dec : EqDecision exc.
Proof. solve_decision. Defined.

Inductive result (A : Type) :=
| Ok (a : A)
| Raise (e : exc).
Arguments Ok {A} a.
Arguments Raise {A} e.

Definition bind {A B} (m : result A) (k : A -> result B) : result B :=
  match m with Ok a => k a | Raise e => Raise e end.

Notation "x <- m ;; k" := (bind m (fun x => k))
  (at level 100, m at next level, right associativity).

(** A decoded JSON document (Python's [json] module output). *)
Inductive json :=
| JNull
| JBool (b : bool)
| JInt (z : Z)
| JStr (s : string)
| JList (l : list json)
| JObj (kvs : list (string * json)).

Fixpoint assoc (kvs : list (string * json)) (k : string) : option json :=
  match kvs with
  | [] => None
  | (k', v) :: rest => if String.eqb k k' then Some v else assoc rest k
  end.

(** [d[k] = v] on a dict: the key keeps its position, or is appended. *)
Fixpoint assoc_set (kvs : list (string * json)) (k : string) (v : json)
  : list (string * json) :=
  match kvs with
  | [] => [(k, v)]
  | (k', v') :: rest =>
      if String.eqb k k' then (k', v) :: rest else (k', v') :: assoc_set rest k v
  end.

(** [d[k]] with a string key. *)
Definition getitem (d : json) (k : string) : result json :=
  match d with
  | JObj kvs => match assoc kvs k with Some v => Ok v | None => Raise KeyError end
  | _ => Raise TypeError
  end.

(** [d.get(k, default)]; only dicts have [.get]. *)
Definition get (d : json) (k : string) (dflt : json) : result json :=
  match d with
  | JObj kvs => match assoc kvs k with Some v => Ok v | None => Ok dflt end
  | _ => Raise AttributeError
  end.

Definition str_of_char (c : ascii) : string := String c EmptyString.

(** [x[i]] with an integer index (negative indices count from the end). *)
Definition index (x : json) (i : Z) : result json :=
  let pos n := if i <? 0 then i + n else i in
  match x with
  | JList l =>
      let j := pos (Z.of_nat (length l)) in
      if (0 <=? j) && (j <? Z.of_nat (length l))
      then match l !! Z.to_nat j with Some v => Ok v | None => Raise IndexError end
      else Raise IndexError
  | JStr s =>
      let j := pos (Z.of_nat (String.length s)) in
      if (0 <=? j) && (j <? Z.of_nat (String.length s))
      then match String.get (Z.to_nat j) s with
           | Some c => Ok (JStr (str_of_char c)) | None => Raise IndexError end
      else Raise IndexError
  | JObj _ => Raise KeyError     (* JSON object keys are strings, never ints *)
  | _ => Raise TypeError
  end.

Definition len (x : json) : result Z :=
  match x with
  | JStr s => Ok (Z.of_nat (String.length s))
  | JList l => Ok (Z.of_nat (length l))
  | JObj kvs => Ok (Z.of_nat (length kvs))
  | _ => Raise TypeError
  end.

Definition truthy (x : json) : bool :=
  match x with
  | JNull => false
  | JBool b => b
  | JInt z => negb (z =? 0)
  | JStr s => negb (String.eqb s "")
  | JList l => negb (bool_decide (l = []))
  | JObj kvs => negb (bool_decide (kvs = []))
  end.

(** [a or b] *)
Definition py_or (a b : json) : json := if truthy a then a else b.

(** The integer an argument of [range] stands for (bool is an int). *)
Definition as_index (x : json) : result Z :=
  match x with
  | JInt z => Ok z
  | JBool b => Ok (if b then 1 else 0)
  | _ => Raise TypeError
  end.

Definition is_list (x : json) : bool :=
  match x with JList _ => true | _ => false end.

(** [x == s] for a str literal [s]: only a str can be equal to it. *)
Definition eq_str (x : json) (s : string) : bool :=
  match x with JStr t => String.eqb t s | _ => false end.

(** [try: m except es: handler] *)
Definition catch {A} (es : list exc) (m : result A) (handler : exc -> result A)
  : result A :=
  match m with
  | Raise e => if bool_decide (e ∈ es) then handler e else Raise e
  | Ok a => Ok a
  end.

(** The indices of [range(0, n)]. *)
Definition range (n : Z) : list Z := seqZ 0 n.

(** [str.lower()] on ASCII. *)
Definition lower_char (c : ascii) : ascii :=
  let n := nat_of_ascii c in
  if (65 <=? n)%nat && (n <=? 90)%nat then ascii_of_nat (n + 32) else c.

Fixpoint lower (s : string) : string :=
  match s with
  | EmptyString => EmptyString
  | String c rest => String (lower_char c) (lower rest)
  end.

(** [needle in hay] for strings. *)
Fixpoint contains (needle hay : string) : bool :=
  String.prefix needle hay ||
  match hay with EmptyString => false | String _ rest => contains needle rest end.

Definition hex_digit (n : nat) : ascii :=
  if (n <? 10)%nat then ascii_of_nat (48 + n) else ascii_of_nat (87 + n).

(** One character of [repr(s)] between the quotes [q]. *)
Definition repr_char (q : ascii) (c : ascii) : string :=
  let n := nat_of_ascii c in
  if (n =? 92)%nat then "\\"
  else if Ascii.eqb c q then String "\" (str_of_char q)
  else if (n =? 9)%nat then "\t"
  else if (n =? 10)%nat then "\n"
  else if (n =? 13)%nat then "\r"
  else if (n <? 32)%nat || ((127 <=? n)%nat && (n <=? 160)%nat) || (n =? 173)%nat
  then String "\" (String "x" (String (hex_digit (n / 16)) (str_of_char (hex_digit (n mod 16)))))
  else str_of_char c.

Fixpoint has_char (c : ascii) (s : string) : bool :=
  match s with
  | EmptyString => false
  | String c' rest => Ascii.eqb c c' || has_char c rest
  end.

Fixpoint concat_map (f : ascii -> string) (s : string) : string :=
  match s with
  | EmptyString => EmptyString
  | String c rest => f c +:+ concat_map f rest
  end.

Definition double_quote : ascii := ascii_of_nat 34.

(** [repr(s)] of a str: single quotes unless the text has a single and no
    double quote. *)
Definition repr_str (s : string) : string :=
  let q := if has_char "'" s && negb (has_char double_quote s) then double_quote else "'"%char in
  str_of_char q +:+ concat_map (repr_char q) s +:+ str_of_char q.

Fixpoint join (sep : string) (l : list string) : string :=
  match l with
  | [] => ""
  | [x] => x
  | x :: rest => x +:+ sep +:+ join sep rest
  end.

(** [repr(x)] of a JSON value; [str(x)] differs from it only on strings. *)
Fixpoint repr (x : json) : string :=
  match x with
  | JNull => "None"
  | JBool true => "True"
  | JBool false => "False"
  | JInt z => pretty z
  | JStr s => repr_str s
  | JList l => "[" +:+ join ", " (map repr l) +:+ "]"
  | JObj kvs =>
      "{" +:+ join ", " (map (fun kv => repr_str kv.1 +:+ ": " +:+ repr kv.2) kvs) +:+ "}"
  end.

Definition str (x : json) : string :=
  match x with JStr s => s | _ => repr x end.

Definition is_space (c : ascii) : bool :=
  let n := nat_of_ascii c in (n =? 32)%nat || ((9 <=? n)%nat && (n <=? 13)%nat).

Fixpoint strip_left (s : string) : string :=
  match s with
  | String c rest => if is_space c then strip_left rest else s
  | EmptyString => EmptyString
  end.

Fixpoint rev_onto (s acc : string) : string :=
  match s with
  | EmptyString => acc
  | String c rest => rev_onto rest (String c acc)
  end.

(** [s.strip()] *)
Definition strip (s : string) : string :=
  rev_onto (strip_left (rev_onto (strip_left s) EmptyString)) EmptyString.

Definition digit_value (c : ascii) : option Z :=
  let n := nat_of_ascii c in
  if (48 <=? n)%nat && (n <=? 57)%nat then Some (Z.of_nat (n - 48)) else None.

(** Decimal digits, with '_' allowed between digits as in [int()]. *)
Fixpoint digits_value (acc : Z) (prev_digit : bool) (s : string) : option Z :=
  match s with
  | EmptyString => if prev_digit then Some acc else None
  | String c rest =>
      match digit_value c with
      | Some d => digits_value (10 * acc + d) true rest
      | None =>
          if Ascii.eqb c "_" && prev_digit
          then match rest with
               | String c' _ => if digit_value c' then digits_value acc false rest else None
               | EmptyString => None
               end
          else None
      end
  end.

(** [int(s)] of a str in base 10. *)
Definition int_of_string (s : string) : result Z :=
  let t := strip s in
  let parsed :=
    match t with
    | String "-" rest => option_map Z.opp (digits_value 0 false rest)
    | String "+" rest => digits_value 0 false rest
    | _ => digits_value 0 false t
    end in
  match parsed with Some z => Ok z | None => Raise ValueError end.

(** [int(x)] *)
Definition int (x : json) : result Z :=
  match x with
  | JInt z => Ok z
  | JBool b => Ok (if b then 1 else 0)
  | JStr s => int_of_string s
  | _ => Raise TypeError
  end.

(** [key in x] for a str [key]. *)
Definition contains_key (key : string) (x : json) : result bool :=
  match x with
  | JObj kvs => Ok (bool_decide (is_Some (assoc kvs key)))
  | JList l => Ok (existsb (fun v => eq_str v key) l)
  | JStr s => Ok (contains key s)
  | _ => Raise TypeError
  end.

End Py.

(* ------------------------------------------------------------------ *)
(** * OlarmApi._rate_limiters and OlarmApi.__init__ *)

Module Registry.

(** The fields of an [OlarmApi] object this model follows; [rate_limiter]
    is a reference (an address in [heap]) to an [OlarmRateLimiter]. *)
Record olarm_api := mk_api {
  device_id : string;
  api_key : string;
  device_name : string;
  rate_limiter : nat
}.

(** The process state: the class attribute [OlarmApi._rate_limiters], the
    limiter objects allocated so far (the address of an object is its
    position), and, for each allocated limiter, the key whose lookup
    allocated it (bookkeeping only, not a program variable). *)
Record world := mk_world {
  rate_limiters : gmap string nat;
  heap : list RateLimiter.limiter;
  created_for : list string
}.

(** At import time the class attribute is [{}]. *)
Definition empty_world : world := mk_world ∅ [] [].

(** [OlarmRateLimiter()] evaluated while handling key [k]. *)
Definition new_limiter (k : string) (w : world) : nat * world :=
  (length (heap w),
   mk_world (rate_limiters w) (heap w ++ [RateLimiter.default]) (created_for w ++ [k])).

(** [OlarmApi.__init__] (lines 126-155). *)
Definition olarm_api_init (device_id api_key device_name : string) (w : world)
  : Py.result (olarm_api * world) :=
  let w1 :=
    match rate_limiters w !! api_key with
    | Some _ => w
    | None =>
        let '(l, w') := new_limiter api_key w in
        mk_world (<[api_key := l]> (rate_limiters w')) (heap w') (created_for w')
    end in
  match rate_limiters w1 !! api_key with
  | Some l => Py.Ok (mk_api device_id api_key device_name l, w1)
  | None => Py.Raise Py.KeyError
  end.

(** Constructing one [OlarmApi] per [(device_id, api_key)], in order, with
    the default device name. *)
Fixpoint construct_all (reqs : list (string * string)) (w : world)
  : Py.result (list olarm_api * world) :=
  match reqs with
  | [] => Py.Ok ([], w)
  | (d, k) :: rest =>
      match olarm_api_init d k "Olarm Sensors" w with
      | Py.Ok (a, w') =>
          match construct_all rest w' with
          | Py.Ok (apis, w'') => Py.Ok (a :: apis, w'')
          | Py.Raise e => Py.Raise e
          end
      | Py.Raise e => Py.Raise e
      end
  end.

(** Well-formed process state: each key allocated at most one limiter, and
    the registry maps a key to exactly the limiter allocated for it. *)
Definition world_ok (w : world) : Prop :=
  NoDup (created_for w) /\ length (heap w) = length (created_for w) /\
  forall k l, rate_limiters w !! k = Some l <-> created_for w !! l = Some k.

End Registry.

(* ------------------------------------------------------------------ *)
(** * The device-state decoders of OlarmApi *)

Module Decoders.
Import Py.

(** The body of a [for] loop over [range(...)] whose records are appended
    to a list: the records appended before an exception, and the
    exception, if any. *)
Fixpoint for_each {A} (body : Z -> result A) (idx : list Z) (acc : list A)
  : list A * option exc :=
  match idx with
  | [] => (acc, None)
  | i :: rest =>
      match body i with
      | Ok a => for_each body rest (acc ++ [a])
      | Raise e => (acc, Some e)
      end
  end.

(** [except (DictionaryKeyError, KeyError, IndexError, ListIndexError)]:
    the two exception classes of the integration are never raised by the
    decoders, so the clause catches [KeyError] and [IndexError]. *)
Definition lookup_errors : list exc := [KeyError; IndexError].

(** [try: <block> return data / except lookup_errors: return data] *)
Definition return_partial {A} (r : list A * option exc) : result (list A) :=
  match r.2 with
  | None => Ok r.1
  | Some e => catch lookup_errors (Raise e) (fun _ => Ok r.1)
  end.

Section Decoders.

(** [datetime.strptime(time.ctime(ms / 1000), "%a %b  %d %X %Y")
    .strftime("%a %d %b %Y %X")] for a [zonesStamp] entry [int(...) = ms]:
    the host's local-time formatting, left abstract. *)
Variable zone_stamp_text : Z -> result string.
(** The same with [+ timedelta(hours=2)] before [strftime] (bypass decoder). *)
Variable bypass_stamp_text : Z -> result string.

Record sensor := mk_sensor {
  s_name : json;
  s_state : string;
  s_last_changed : option string;
  s_type : json;
  s_zone_number : Z
}.

Record bypass := mk_bypass {
  b_name : json;
  b_state : string;
  b_last_changed : option string;
  b_zone_number : Z
}.

(** [zone < len(olarm_state.get("zones", [])) and
     str(olarm_state["zones"][zone]).lower() == c] *)
Definition zone_char_is (olarm_state : json) (zone : Z) (c : string) : result bool :=
  zs <- get olarm_state "zones" (JList []) ;;
  n <- len zs ;;
  if zone <? n then
    v <- getitem olarm_state "zones" ;;
    x <- index v zone ;;
    Ok (String.eqb (lower (str x)) c)
  else Ok false.

(** The [try ... except (TypeError, ValueError, KeyError, IndexError)]
    computing [last_changed]. *)
Definition zone_stamp (fmt : Z -> result string) (olarm_state : json) (zone : Z)
  : result (option string) :=
  catch [TypeError; ValueError; KeyError; IndexError]
    (st <- get olarm_state "zonesStamp" (JList []) ;;
     n <- len st ;;
     if zone <? n then
       v <- getitem olarm_state "zonesStamp" ;;
       x <- index v zone ;;
       ms <- int x ;;
       t <- fmt ms ;;
       Ok (Some t)
     else Ok None)
    (fun _ => Ok None).

Definition default_zone_name (zone : Z) : json := JStr ("Zone " +:+ pretty (zone + 1)).

(** [zone < len(labels) and (labels[zone] or labels[zone] == "")] *)
Definition has_label (labels : json) (zone : Z) : result bool :=
  nl <- len labels ;;
  if zone <? nl then
    lab <- index labels zone ;;
    Ok (truthy lab || eq_str lab "")
  else Ok false.

(** One iteration of the zone loop of [get_sensor_states] (lines 344-378). *)
Definition sensor_zone (olarm_state olarm_zones : json) (zone : Z) : result sensor :=
  active <- zone_char_is olarm_state zone "a" ;;
  last_changed <- zone_stamp zone_stamp_text olarm_state zone ;;
  labels <- get olarm_zones "zonesLabels" (JList []) ;;
  types <- get olarm_zones "zonesTypes" (JList []) ;;
  named <- has_label labels zone ;;
  zone_name <- (if named then index labels zone else Ok (default_zone_name zone)) ;;
  nt <- len types ;;
  zone_type <- (if zone <? nt then index types zone else Ok (JInt 0)) ;;
  Ok (mk_sensor zone_name (if active then "on" else "off") last_changed zone_type zone).

(** [power] after lines 381-386, as the pairs of [power.items()]. *)
Definition power_items (olarm_state : json) : result (list (string * json)) :=
  power <- get olarm_state "power" (JObj []) ;;
  legacy <- (if truthy power then Ok false else contains_key "powerAC" olarm_state) ;;
  power' <- (if legacy then
              ac <- get olarm_state "powerAC" JNull ;;
              bt <- get olarm_state "powerBattery" JNull ;;
              Ok (JObj [("AC", JInt (if eq_str ac "ok" then 1 else 0));
                        ("Batt", JInt (if eq_str bt "ok" then 1 else 0))])
            else Ok power) ;;
  match power' with JObj kvs => Ok kvs | _ => Raise AttributeError end.

(** The loop over [power.items()] (lines 387-408), numbering from [zone]. *)
Fixpoint power_loop (items : list (string * json)) (zone : Z) (acc : list sensor)
  : list sensor * option exc :=
  match items with
  | [] => (acc, None)
  | (key, value) :: rest =>
      match int value with
      | Raise e => (acc, Some e)
      | Ok v =>
          let state := if v =? 1 then "on" else "off" in
          let '(key', sensortype) :=
            if String.eqb key "Batt" then ("Battery", 1001) else (key, 1000) in
          power_loop rest (zone + 1)
            (acc ++ [mk_sensor (JStr ("Powered by " +:+ key')) state None (JInt sensortype) zone])
      end
  end.

(** The [try] block of [get_sensor_states] (lines 343-410). *)
Definition sensor_try (olarm_state olarm_zones : json) : list sensor * option exc :=
  match (lim <- getitem olarm_zones "zonesLimit" ;; as_index lim) with
  | Raise e => ([], Some e)
  | Ok n =>
      let '(data, err) := for_each (sensor_zone olarm_state olarm_zones) (range n) [] in
      match err with
      | Some e => (data, Some e)
      | None =>
          (* [zone = zone + 1]: [zone] is unbound when the loop did not run *)
          match last (range n) with
          | None => (data, Some UnboundLocalError)
          | Some zone =>
              match power_items olarm_state with
              | Raise e => (data, Some e)
              | Ok items => power_loop items (zone + 1) data
              end
          end
      end
  end.

(** [OlarmApi.get_sensor_states] *)
Definition get_sensor_states (devices_json : json) : result (list sensor) :=
  olarm_state <- getitem devices_json "deviceState" ;;
  olarm_zones <- getitem devices_json "deviceProfile" ;;
  return_partial (sensor_try olarm_state olarm_zones).

(** One iteration of the loop of [get_sensor_bypass_states] (lines 431-461). *)
Definition bypass_zone (olarm_state olarm_zones : json) (zone : Z) : result bypass :=
  active <- zone_char_is olarm_state zone "b" ;;
  last_changed <- zone_stamp bypass_stamp_text olarm_state zone ;;
  labels <- get olarm_zones "zonesLabels" (JList []) ;;
  named <- has_label labels zone ;;
  zone_name <- (if named then index labels zone else Ok (default_zone_name zone)) ;;
  Ok (mk_bypass zone_name (if active then "on" else "off") last_changed zone).

(** [OlarmApi.get_sensor_bypass_states] *)
Definition get_sensor_bypass_states (devices_json : json) : result (list bypass) :=
  olarm_state <- getitem devices_json "deviceState" ;;
  olarm_zones <- getitem devices_json "deviceProfile" ;;
  return_partial
    (match (lim <- getitem olarm_zones "zonesLimit" ;; as_index lim) with
     | Raise e => ([], Some e)
     | Ok n => for_each (bypass_zone olarm_state olarm_zones) (range n) []
     end).

End Decoders.

(** ** Areas *)

Record area := mk_area {
  a_name : string;
  a_state : json;
  a_area_number : Z
}.

(** One iteration of the loop of [get_panel_states] (lines 486-502):
    [None] when the area has no entry in [olarm_state["areas"]]. *)
Definition panel_area (olarm_state olarm_zones : json) (area_num : Z)
  : result (option area) :=
  named <- (if is_list olarm_zones then
              nl <- len olarm_zones ;;
              if area_num <? nl then
                lab <- index olarm_zones area_num ;; Ok (negb (eq_str lab ""))
              else Ok false
            else Ok false) ;;
  name <- (if named then index olarm_zones area_num
           else Ok (JStr ("Area " +:+ pretty (area_num + 1)))) ;;
  areas <- get olarm_state "areas" (JList []) ;;
  k <- len areas ;;
  if area_num <? k then
    a <- getitem olarm_state "areas" ;;
    s <- index a area_num ;;
    Ok (Some (mk_area (str name) s (area_num + 1)))
  else Ok None.

(** The loop with its per-iteration [except (DictionaryKeyError, KeyError)]:
    a failing area is logged and skipped. *)
Fixpoint panel_loop (body : Z -> result (option area)) (idx : list Z)
  (acc : list area) : result (list area) :=
  match idx with
  | [] => Ok acc
  | i :: rest =>
      r <- catch [KeyError] (body i) (fun _ => Ok None) ;;
      match r with
      | Some a => panel_loop body rest (acc ++ [a])
      | None => panel_loop body rest acc
      end
  end.

(** [OlarmApi.get_panel_states]; the default of [zones.get("areasLimit",
    len(olarm_zones))] is evaluated first. *)
Definition get_panel_states (devices_json : json) : result (list area) :=
  olarm_state <- getitem devices_json "deviceState" ;;
  zones <- getitem devices_json "deviceProfile" ;;
  olarm_zones <- get zones "areasLabels" (JList []) ;;
  d <- len olarm_zones ;;
  area_count <- get zones "areasLimit" (JInt d) ;;
  n <- as_index area_count ;;
  panel_loop (panel_area olarm_state olarm_zones) (range n) [].

(** ** PGMs *)

Record pgm := mk_pgm {
  p_name : json;
  p_enabled : bool;
  p_pulse : bool;
  p_state : bool;
  p_pgm_number : Z
}.

Definition is_dict (x : json) : bool :=
  match x with JObj _ => true | _ => false end.

(** [x == 0] *)
Definition eq_zero (x : json) : bool :=
  match x with JInt z => z =? 0 | JBool b => negb b | _ => false end.

(** [seq[i] if isinstance(seq, list) and i < len(seq) else dflt] *)
Definition item_or (sq : json) (i : Z) (dflt : json) : result json :=
  if is_list sq then
    k <- len sq ;;
    if i <? k then index sq i else Ok dflt
  else Ok dflt.

(** The first [try] block of [get_pgm_zones] (lines 518-536): [None] for
    [return []], else [(pgm_state, pgm_labels, pgm_limit, pgm_setup)]. *)
Definition pgm_config (devices_json : json)
  : result (option (json * json * json * json)) :=
  catch [KeyError]
    (profile <- get devices_json "deviceProfile" JNull ;;
     if negb (is_dict profile) then Ok None else
     state_obj <- get devices_json "deviceState" (JObj []) ;;
     pgm_state <- get state_obj "pgm" JNull ;;
     labels <- get profile "pgmLabels" JNull ;;
     limit <- get profile "pgmLimit" JNull ;;
     setup <- get profile "pgmControl" JNull ;;
     let pgm_labels := py_or labels (JList []) in
     let pgm_limit := py_or limit (JInt 0) in
     let pgm_setup := py_or setup (JList []) in
     pgm_limit' <- (if eq_zero pgm_limit && is_list pgm_labels
                    then k <- len pgm_labels ;; Ok (JInt k) else Ok pgm_limit) ;;
     Ok (Some (pgm_state, pgm_labels, pgm_limit', pgm_setup)))
    (fun _ => Ok None).

(** [len(s) > k and s[k] == "1"] for a str [s]. *)
Definition char_is_one (s : string) (k : Z) : result bool :=
  n <- len (JStr s) ;;
  if k <? n then c <- index (JStr s) k ;; Ok (eq_str c "1") else Ok false.

(** [isinstance(pgm_state, (list, tuple)) and i < len(pgm_state) and
     str(pgm_state[i]).lower() == "a"] *)
Definition pgm_on (pgm_state : json) (i : Z) : result bool :=
  if is_list pgm_state then
    k <- len pgm_state ;;
    if i <? k then x <- index pgm_state i ;; Ok (String.eqb (lower (str x)) "a")
    else Ok false
  else Ok false.

(** [str(setup_val) if setup_val is not None else ""] *)
Definition setup_string (setup_val : json) : string :=
  match setup_val with JNull => "" | v => str v end.

(** One iteration of the PGM loop (lines 540-578); [None] for [continue]. *)
Definition pgm_body (pgm_state pgm_labels pgm_setup : json) (i : Z)
  : result (option pgm) :=
  state <- pgm_on pgm_state i ;;
  name <- item_or pgm_labels i (JStr ("PGM " +:+ pretty (i + 1))) ;;
  setup_val <- item_or pgm_setup i (JStr "") ;;
  if eq_str setup_val "" then Ok None else
  let setup_str := setup_string setup_val in
  enabled <- char_is_one setup_str 0 ;;
  pulse <- char_is_one setup_str 2 ;;
  let number := i + 1 in
  let name' := if eq_str name "" then JStr ("PGM " +:+ pretty number) else name in
  Ok (Some (mk_pgm name' enabled pulse state number)).

(** A [for] loop whose body may [continue] before appending. *)
Fixpoint for_each_opt {A} (body : Z -> result (option A)) (idx : list Z)
  (acc : list A) : list A * option exc :=
  match idx with
  | [] => (acc, None)
  | i :: rest =>
      match body i with
      | Ok (Some a) => for_each_opt body rest (acc ++ [a])
      | Ok None => for_each_opt body rest acc
      | Raise e => (acc, Some e)
      end
  end.

(** [OlarmApi.get_pgm_zones] *)
Definition get_pgm_zones (devices_json : json) : result (list pgm) :=
  cfg <- pgm_config devices_json ;;
  match cfg with
  | None => Ok []
  | Some (pgm_state, pgm_labels, pgm_limit, pgm_setup) =>
      catch lookup_errors
        (n <- int pgm_limit ;;
         return_partial (for_each_opt (pgm_body pgm_state pgm_labels pgm_setup) (range n) []))
        (fun _ => Ok [])
  end.

(** ** Utility keys *)

Record ukey := mk_ukey {
  u_name : json;
  u_state : bool;
  u_ukey_number : Z
}.

(** The first [try] block of [get_ukey_zones] (lines 594-601): [None] for
    [return []], else [(ukey_labels, ukey_limit, ukey_state)]. *)
Definition ukey_config (devices_json : json) : result (option (json * json * json)) :=
  catch [KeyError]
    (p <- getitem devices_json "deviceProfile" ;;
     has_labels <- contains_key "ukeysLabels" p ;;
     has_limit <- (if has_labels then
                     p' <- getitem devices_json "deviceProfile" ;;
                     contains_key "ukeysLimit" p'
                   else Ok false) ;;
     has_control <- (if has_limit then
                       p' <- getitem devices_json "deviceProfile" ;;
                       contains_key "ukeysControl" p'
                     else Ok false) ;;
     if has_control then
       labels <- (p' <- getitem devices_json "deviceProfile" ;; getitem p' "ukeysLabels") ;;
       limit <- (p' <- getitem devices_json "deviceProfile" ;; getitem p' "ukeysLimit") ;;
       state <- (p' <- getitem devices_json "deviceProfile" ;; getitem p' "ukeysControl") ;;
       Ok (Some (labels, limit, state))
     else Ok None)
    (fun _ => Ok None).

(** One iteration of the utility-key loop (lines 613-626). *)
Definition ukey_body (ukey_labels ukey_state : json) (i : Z) : result ukey :=
  x <- index ukey_state i ;;
  v <- int x ;;
  name <- index ukey_labels i ;;
  let number := i + 1 in
  let name' := if eq_str name "" then JStr ("Ukey " +:+ pretty number) else name in
  Ok (mk_ukey name' (v =? 1) number).

(** The loop with its inner [except (DictionaryKeyError, KeyError): return []]. *)
Fixpoint ukey_loop (body : Z -> result ukey) (idx : list Z) (acc : list ukey)
  : result (list ukey) :=
  match idx with
  | [] => Ok acc
  | i :: rest =>
      match body i with
      | Ok u => ukey_loop body rest (acc ++ [u])
      | Raise KeyError => Ok []
      | Raise e => Raise e
      end
  end.

(** [OlarmApi.get_ukey_zones] *)
Definition get_ukey_zones (devices_json : json) : result (list ukey) :=
  cfg <- ukey_config devices_json ;;
  match cfg with
  | None => Ok []
  | Some (ukey_labels, ukey_limit, ukey_state) =>
      catch lookup_errors
        (n <- as_index ukey_limit ;;
         ukey_loop (ukey_body ukey_labels ukey_state) (range n) [])
        (fun _ => Ok [])
  end.

End Decoders.

(* ================================================================== *)
(** * The HTTP methods of [OlarmApi] *)

Module Http.
Import Py RateLimiter.

(** What [session.get]/[session.post] yields: [aiohttp] reports a
    connection failure as [APIClientConnectorError] (whose message the
    methods log or return), otherwise a response. *)
Record response := mk_response {
  status : Z;
  json_content_type : bool;   (* the Content-Type is [application/json] *)
  text : string;              (* [await response.text()] *)
  parsed : option json        (* [json.loads(text)], [None] when it fails *)
}.

Inductive transport :=
| ConnectorError (msg : string)
| Reply (r : response).

(** [await response.json()] *)
Definition response_json (r : response) : result json :=
  if json_content_type r then
    match parsed r with Some j => Ok j | None => Raise JSONDecodeError end
  else Raise ContentTypeError.

(** [d[k] = v] *)
Definition setitem (d : json) (k : string) (v : json) : result json :=
  match d with JObj kvs => Ok (JObj (assoc_set kvs k v)) | _ => Raise TypeError end.

(** The [LOGGER.error] calls that classify a response. *)
Inductive log_event :=
| LogRateLimited429
| LogForbidden
| LogUnavailable
| LogTooManyRequests
| LogTextInsteadOfJson
| LogConnectorError.

(** Lines 676-684 of [send_action], on the decoded reply [resp]. *)
Definition action_reply (resp : json) : result bool :=
  st <- getitem resp "actionStatus" ;;
  _ <- (if String.eqb (lower (str st)) "ok" then Ok tt
        else _ <- getitem resp "actionCmd" ;;
             _ <- getitem resp "deviceName" ;;
             _ <- getitem resp "actionMsg" ;; Ok tt) ;;
  st' <- getitem resp "actionStatus" ;;
  Ok (String.eqb (lower (str st')) "ok").

(** [OlarmApi.send_action] (lines 642-701), on the limiter of the key; [c]
    holds the readings of [wait_for_slot], [now] the one of
    [record_rate_limit]. The callers always pass [post_data] with an
    [actionNum], so the logging of line 688 does not fail. *)
Definition send_action (s : limiter) (c : wait_clock) (now : Z) (t : transport)
  : result bool * limiter :=
  let '(granted, _, s1) := wait_for_slot s c in
  if negb granted then (Ok false, s1) else
  match t with
  | ConnectorError _ => (Ok false, s1)
  | Reply r =>
      if status r =? 429 then (Ok false, record_rate_limit now s1) else
      match response_json r with
      | Ok resp => (action_reply resp, record_success s1)
      | Raise ContentTypeError =>
          (Ok false,
           if contains "too many requests" (lower (text r))
           then record_rate_limit now s1 else s1)
      | Raise e => (Raise e, s1)
      end
  end.

Definition error_reply (msg : string) : json := JObj [("error", JStr msg)].

(** [OlarmApi.get_device_json] (lines 157-215): the returned dict, the
    limiter afterwards and the classifying log calls. *)
Definition get_device_json (s : limiter) (c : wait_clock) (now : Z) (t : transport)
  : result json * limiter * list log_event :=
  let '(granted, _, s1) := wait_for_slot s c in
  if negb granted
  then (Ok (error_reply "Rate limited — too many consecutive 429 responses"), s1, []) else
  match t with
  | ConnectorError msg => (Ok (error_reply msg), s1, [LogConnectorError])
  | Reply r =>
      if status r =? 429
      then (Ok (error_reply (text r)), record_rate_limit now s1, [LogRateLimited429]) else
      match response_json r with
      | Ok resp =>
          match setitem resp "error" JNull with
          | Ok resp' => (Ok resp', record_success s1, [])
          | Raise e => (Raise e, s1, [])
          end
      | Raise ContentTypeError =>
          let low := lower (text r) in
          if contains "forbidden" low then (Ok (error_reply (text r)), s1, [LogForbidden])
          else if status r =? 502 then (Ok (error_reply (text r)), s1, [LogUnavailable])
          else if contains "too many requests" low
          then (Ok (error_reply (text r)), record_rate_limit now s1, [LogTooManyRequests])
          else (Ok (error_reply (text r)), s1, [LogTextInsteadOfJson])
      | Raise e => (Raise e, s1, [])
      end
  end.

(** [OlarmApi.get_all_devices] (lines 791-842); [self.devices] is the
    returned list. *)
Definition get_all_devices (s : limiter) (c : wait_clock) (now : Z) (t : transport)
  : result json * limiter * list log_event :=
  let '(granted, _, s1) := wait_for_slot s c in
  if negb granted then (Ok (JList []), s1, []) else
  match t with
  | ConnectorError _ => (Ok (JList []), s1, [LogConnectorError])
  | Reply r =>
      if status r =? 429
      then (Ok (JList []), record_rate_limit now s1, [LogRateLimited429]) else
      match response_json r with
      | Ok olarm_resp =>
          match getitem olarm_resp "data" with
          | Ok devices => (Ok devices, record_success s1, [])
          | Raise e => (Raise e, s1, [])
          end
      | Raise ContentTypeError =>
          if contains "Forbidden" (text r) then (Ok (JList []), s1, [LogForbidden])
          else if contains "Too Many Requests" (text r)
          then (Ok (JList []), record_rate_limit now s1, [LogTooManyRequests])
          else (Ok (JList []), s1, [LogTextInsteadOfJson])
      | Raise e => (Raise e, s1, [])
      end
  end.

(** The initial [return_data] of [get_changed_by_json]. *)
Definition no_user : json :=
  JObj [("userFullname", JStr "No User"); ("actionCreated", JInt 0); ("actionCmd", JNull)].

Definition skipped_cmds : list string :=
  ["zone-bypass"; "pgm-open"; "pgm-close"; "pgm-pulse"; "ukey-activate"].

(** [for x in changes] *)
Definition iter_items (x : json) : result (list json) :=
  match x with
  | JList l => Ok l
  | JObj kvs => Ok (map (fun kv => JStr kv.1) kvs)
  | JStr s => Ok (map (fun c => JStr (str_of_char c)) (list_ascii_of_string s))
  | _ => Raise TypeError
  end.

(** The condition of lines 268-276, evaluated left to right. *)
Definition selects (area return_data change : json) : result bool :=
  cmd <- getitem change "actionCmd" ;;
  if existsb (eq_str cmd) skipped_cmds then Ok false else
  num <- getitem change "actionNum" ;;
  n <- int num ;;
  a <- int area ;;
  if negb (n =? a) then Ok false else
  cur <- getitem return_data "actionCreated" ;;
  v <- int cur ;;
  created <- getitem change "actionCreated" ;;
  w <- int created ;;
  Ok (v <? w).

Fixpoint changed_loop (area return_data : json) (changes : list json) : result json :=
  match changes with
  | [] => Ok return_data
  | change :: rest =>
      b <- selects area return_data change ;;
      changed_loop area (if b then change else return_data) rest
  end.

Section Changed.

(** [datetime.strptime(time.ctime(z), "%a %b  %d %X %Y")
    .strftime("%a %d %b %Y %X")] for [int(return_data["actionCreated"]) = z]:
    the host's local-time formatting, left abstract. *)
Variable action_time_text : Z -> result string.

(** The [try ... except TypeError] of lines 286-296. *)
Definition stamp_created (return_data : json) : result json :=
  catch [TypeError]
    (ac <- getitem return_data "actionCreated" ;;
     z <- int ac ;;
     txt <- action_time_text z ;;
     setitem return_data "actionCreated" (JStr txt))
    (fun _ => Ok return_data).

(** [OlarmApi.get_changed_by_json] (lines 217-306). *)
Definition get_changed_by_json (area : json) (s : limiter) (c : wait_clock) (now : Z)
    (t : transport) : result json * limiter :=
  let return_data := no_user in
  let '(granted, _, s1) := wait_for_slot s c in
  if negb granted then (Ok return_data, s1) else
  match t with
  | ConnectorError _ => (Ok return_data, s1)
  | Reply r =>
      if status r =? 404 then (Ok return_data, record_success s1) else
      if status r =? 429 then (Ok return_data, record_rate_limit now s1) else
      match response_json r with
      | Ok changes =>
          (items <- iter_items changes ;;
           rd <- changed_loop area return_data items ;;
           stamp_created rd,
           record_success s1)
      | Raise ContentTypeError => (stamp_created return_data, s1)
      | Raise e => (Raise e, s1)
      end
  end.

End Changed.

End Http.

(** ** Readings of the claims *)

Module Readings.
Import Py.

(** Entry [i] of a [pgmControl] list, if there is one. *)
Definition pgm_entry (pgm_setup : json) (i : Z) : option json :=
  match pgm_setup with JList xs => xs !! Z.to_nat i | _ => None end.

(** Index [i] has a non-empty setup-control entry. *)
Definition pgm_configured (pgm_setup : json) (i : Z) : bool :=
  match pgm_entry pgm_setup i with Some v => negb (eq_str v "") | None => false end.

(** What a [for] loop whose body always succeeds appends, with [f i] the
    outcome of the iteration on [i]. *)
Fixpoint opt_values {A} (f : Z -> option A) (idx : list Z) : list A :=
  match idx with
  | [] => []
  | i :: rest => match f i with Some a => a :: opt_values f rest | None => opt_values f rest end
  end.

Definition ok_or_none {A} (r : result (option A)) : option A :=
  match r with Ok o => o | Raise _ => None end.

(** Every exception [m] can raise satisfies [P]. *)
Definition raises_only {A} (P : exc -> Prop) (m : result A) : Prop :=
  forall e, m = Raise e -> P e.

Definition has_key (kvs : list (string * json)) (k : string) : bool :=
  match assoc kvs k with Some _ => true | None => false end.

(** A decoded action reply [send_action] can read: a dict with an
    [actionStatus] that is "ok" (any case), or with the [actionCmd],
    [deviceName] and [actionMsg] it logs otherwise. *)
Definition action_reply_fine (resp : json) : bool :=
  match resp with
  | JObj kvs =>
      match assoc kvs "actionStatus" with
      | Some st => String.eqb (lower (str st)) "ok" ||
                   (has_key kvs "actionCmd" && has_key kvs "deviceName" && has_key kvs "actionMsg")
      | None => false
      end
  | _ => false
  end.

(** An action that is not the last change of [area]: a dict whose
    [actionCmd] is a bypass, PGM or utility-key command, or whose
    [actionNum] is not [area], or whose [actionCreated] is not positive. *)
Definition no_match (area change : json) : Prop :=
  exists kvs cmd, change = JObj kvs /\ assoc kvs "actionCmd" = Some cmd /\
    (In cmd (map JStr Http.skipped_cmds) \/
     exists num n a, assoc kvs "actionNum" = Some num /\ int num = Ok n /\ int area = Ok a /\
       (n <> a \/ exists ac w, assoc kvs "actionCreated" = Some ac /\ int ac = Ok w /\ w <= 0)).

End Readings.

(* ================================================================== *)
(** * Sample inputs *)

Module Samples.
Import Py RateLimiter Http.

Definition sample_state : json :=
  JObj [("zones", JStr "Aab"); ("power", JObj [("AC", JInt 1); ("Batt", JInt 0)])].

Definition sample_profile : json :=
  JObj [("zonesLimit", JInt 3); ("zonesLabels", JList [JStr "Door"])].

Definition sample_device : json :=
  JObj [("deviceState", sample_state); ("deviceProfile", sample_profile)].

Definition sample_pgm_device : json :=
  JObj [("deviceState", JObj [("pgm", JList [JStr "A"; JStr "c"; JStr "a"])]);
        ("deviceProfile", JObj [("pgmLimit", JInt 3); ("pgmLabels", JList [JStr "Gate"]);
                                ("pgmControl", JList [JStr "101"; JStr "100"; JStr ""])])].

(** Readings of [time.monotonic()] well past the last request. *)
Definition sample_clock : wait_clock := mk_clock 100 100 100 100.

Definition json_reply (st : Z) (body : json) : transport :=
  Reply (mk_response st true "{...}" (Some body)).

Definition text_reply (st : Z) (txt : string) : transport :=
  Reply (mk_response st false txt None).

Definition sample_changes : json :=
  JList [JObj [("actionCmd", JStr "zone-bypass"); ("actionNum", JInt 1);
               ("actionCreated", JInt 50); ("userFullname", JStr "A")];
         JObj [("actionCmd", JStr "area-arm"); ("actionNum", JInt 1);
               ("actionCreated", JInt 60); ("userFullname", JStr "B")]].

Definition sample_ukey_device : json :=
  JObj [("deviceProfile", JObj [("ukeysLabels", JList [JStr "Lights"; JStr ""]);
                                ("ukeysLimit", JInt 2);
                                ("ukeysControl", JList [JStr "1"; JInt 0])])].

(** A panel with two areas, the second unlabelled, and a limit of three. *)
Definition sample_panel_areas : list (string * json) :=
  [("areas", JList [JStr "arm"; JStr "disarm"])].

Definition sample_panel_profile : list (string * json) :=
  [("areasLabels", JList [JStr "House"; JStr ""]); ("areasLimit", JInt 3)].

Definition sample_panel_device : json :=
  JObj [("deviceState", JObj sample_panel_areas); ("deviceProfile", JObj sample_panel_profile)].

End Samples.

(* ================================================================== *)
(** * The rest of olarm_api.py *)

(** ** [OlarmRateLimiter.is_backed_off] and [backoff_remaining] *)

Module Backoff.
Import RateLimiter.

(** [time.monotonic() < self._backoff_until], [t] being the reading. *)
Definition is_backed_off (s : limiter) (t : Z) : bool := t <? backoff_until s.

(** [max(0.0, self._backoff_until - time.monotonic())] *)
Definition backoff_remaining (s : limiter) (t : Z) : Z := Z.max 0 (backoff_until s - t).

End Backoff.

(** ** The action calls and [check_credentials] of [OlarmApi] *)

Module Calls.
Import Py RateLimiter Http.

(** [OlarmApi.send_action] (lines 642-701) on its argument [post_data]:
    [send_action] with the read of [post_data["actionNum"]] made by the
    [LOGGER.error] call of lines 686-691, after the limiter was updated. *)
Definition send_action_with (post_data : json) (s : limiter) (c : wait_clock) (now : Z)
    (t : transport) : result bool * limiter :=
  let '(granted, _, s1) := wait_for_slot s c in
  if negb granted then (Ok false, s1) else
  match t with
  | ConnectorError _ => (Ok false, s1)
  | Reply r =>
      if status r =? 429 then (Ok false, record_rate_limit now s1) else
      match response_json r with
      | Ok resp => (action_reply resp, record_success s1)
      | Raise ContentTypeError =>
          let s2 := if contains "too many requests" (lower (text r))
                    then record_rate_limit now s1 else s1 in
          (_ <- getitem post_data "actionNum" ;; Ok false, s2)
      | Raise e => (Raise e, s1)
      end
  end.

(** The [post_data] of [arm_area], [sleep_area], [stay_area] and
    [disarm_area] (lines 737-767). *)
Definition area_post (cmd : string) (area : json) : json :=
  JObj [("actionCmd", JStr cmd); ("actionNum", area)].

Definition arm_area (area : json) := send_action_with (area_post "area-arm" area).
Definition sleep_area (area : json) := send_action_with (area_post "area-sleep" area).
Definition stay_area (area : json) := send_action_with (area_post "area-stay" area).
Definition disarm_area (area : json) := send_action_with (area_post "area-disarm" area).

(** [BypassZone(zone).data] (const.py). *)
Definition bypass_zone_data (zone : Z) : json := JObj [("zone_num", JInt zone)].

(** [OlarmApi.bypass_zone] (lines 769-778); [zone_data] is [zone.data].
    The key is read before [send_action] touches the limiter. *)
Definition bypass_zone (zone_data : json) (s : limiter) (c : wait_clock) (now : Z)
    (t : transport) : result bool * limiter :=
  match getitem zone_data "zone_num" with
  | Ok num =>
      send_action_with (JObj [("actionCmd", JStr "zone-bypass"); ("actionNum", num)]) s c now t
  | Raise e => (Raise e, s)
  end.

(** [OlarmApi.bypass_zone_with_service] (lines 780-789): the same, returning
    [None]. *)
Definition bypass_zone_with_service (zone_data : json) (s : limiter) (c : wait_clock)
    (now : Z) (t : transport) : result unit * limiter :=
  let '(r, s') := bypass_zone zone_data s c now t in (_ <- r ;; Ok tt, s').

(** [OlarmApi.update_pgm] and [update_ukey] (lines 703-735): [send_action]
    inside a [try ... except APIClientConnectorError]; [send_action] handles
    a connection failure itself, so the handler does not run. *)
Definition update_pgm (pgm_data : json) := send_action_with pgm_data.
Definition update_ukey (ukey_data : json) := send_action_with ukey_data.



End Calls.

(** ** [OlarmSetupApi] and [OlarmUpdateAPI] *)

Module OtherApis.
Import Py Http.


(** [VERSION] (const.py) *)
Definition VERSION : string := "2.3.3".

(** [self.release_data] as [OlarmUpdateAPI.__init__] sets it. *)
Definition initial_release_data : json :=
  JObj [("name", JStr ("Version " +:+ VERSION)); ("body", JStr ""); ("html_url", JStr "")].

(** [OlarmUpdateAPI.get_version] (lines 920-933): what it returns and
    [self.release_data] afterwards. Only [APIClientConnectorError] is
    caught, so the [ContentTypeError] of a non-JSON reply propagates. *)
Definition get_version (release_data : json) (t : transport) : result json * json :=
  match t with
  | ConnectorError _ => (Ok release_data, release_data)
  | Reply r =>
      match response_json r with
      | Ok j => (Ok j, j)
      | Raise e => (Raise e, release_data)
      end
  end.

(** [self.release_data] after a series of calls on one object (a call that
    raises leaves it as it was). *)
Definition run_versions (release_data : json) (ts : list transport) : json :=
  fold_left (fun rd t => snd (get_version rd t)) ts release_data.

End OtherApis.

(** ** Readings of the further properties *)

Module Readings2.
Import Py Http.

(** [int(x["actionCreated"])] *)
Definition created (x : json) : result Z := a <- getitem x "actionCreated" ;; int a.

(** A change that the loop of [get_changed_by_json] considers for [area]:
    a command outside the bypass/PGM/utility-key set and an [actionNum]
    equal to [area] as integers. *)
Definition area_change (area change : json) : Prop :=
  exists cmd num n, getitem change "actionCmd" = Ok cmd /\
    existsb (eq_str cmd) skipped_cmds = false /\
    getitem change "actionNum" = Ok num /\ int num = Ok n /\ int area = Ok n.

End Readings2.

(* ================================================================== *)
(** * Properties *)

Import RateLimiter.

Lemma run_app (s : limiter) (ops : list op) (o : op) :
  run s (ops ++ [o]) = snd (step (run s ops) o).
Proof. unfold run. by rewrite fold_left_app. Qed.

Lemma last_rate_limit_time_app (ops : list op) (o : op) :
  last_rate_limit_time (ops ++ [o]) =
  match o with OpRateLimit now => Some now | _ => last_rate_limit_time ops end.
Proof.
  induction ops as [|o' ops IH]; simpl.
  - destruct o; reflexivity.
  - rewrite IH. destruct o', o; try reflexivity;
      destruct (last_rate_limit_time ops); reflexivity.
Qed.

Lemma rate_limit_count_app (ops : list op) (o : op) :
  rate_limit_count (ops ++ [o]) =
  (rate_limit_count ops + if is_rate_limit o then 1 else 0)%nat.
Proof.
  unfold rate_limit_count. rewrite List.filter_app, length_app.
  destruct o; simpl; lia.
Qed.

Lemma wait_for_slot_backoff (s : limiter) (c : wait_clock) :
  backoff_until (snd (wait_for_slot s c)) = backoff_until s /\
  consecutive_429s (snd (wait_for_slot s c)) = consecutive_429s s.
Proof. unfold wait_for_slot. by destruct (_ <=? _). Qed.

(** Between resets the hit counter counts the [record_rate_limit] calls and
    the backoff deadline is fixed by the last of them. *)
Lemma run_no_reset_invariant (s : limiter) (ops : list op) :
  Forall (fun o => resets o = false) ops ->
  consecutive_429s (run s ops) = consecutive_429s s + Z.of_nat (rate_limit_count ops) /\
  (forall now, last_rate_limit_time ops = Some now ->
     backoff_until (run s ops) =
     now + Z.min (API_BACKOFF_BASE * 2 ^ (consecutive_429s (run s ops) - 1)) API_BACKOFF_MAX).
Proof.
  induction ops as [|o ops IH] using rev_ind; intros Hf.
  - split; [unfold rate_limit_count; simpl; lia | intros ? H; discriminate H].
  - apply Forall_app in Hf as [Hf Ho]. apply Forall_cons_1 in Ho as [Ho _].
    destruct (IH Hf) as [Hc Hb].
    rewrite run_app, rate_limit_count_app, last_rate_limit_time_app.
    destruct o as [c| |now|]; simpl in Ho |- *; try discriminate.
    + destruct (wait_for_slot (run s ops) c) as [[b sl] s'] eqn:E. simpl.
      pose proof (wait_for_slot_backoff (run s ops) c) as [E1 E2].
      rewrite E in E1, E2. simpl in E1, E2. rewrite E1, E2.
      split; [lia|]. intros now Hn. exact (Hb now Hn).
    + split; [lia|]. intros now' Hn. injection Hn as <-. reflexivity.
Qed.

(** C1: starting from a cleared counter, after N >= 1 calls of
    [record_rate_limit] with no [record_success] or [reset_cycle] in between
    (other limiter calls may interleave), [backoff_until - now] is
    [min(60 * 2^(N-1), 300)], [now] being the clock at the N-th call. *)
Theorem record_rate_limit_backoff (s : limiter) (ops : list op) (N : nat) (now : Z) :
  consecutive_429s s = 0 ->
  Forall (fun o => resets o = false) ops ->
  rate_limit_count ops = N ->
  last_rate_limit_time ops = Some now ->
  (1 <= N)%nat /\
  backoff_until (run s ops) - now = Z.min (60 * 2 ^ (Z.of_nat N - 1)) 300.
Proof.
  intros H0 Hf HN Hl.
  destruct (run_no_reset_invariant s ops Hf) as [Hc Hb].
  split.
  - subst N. destruct (decide (rate_limit_count ops = 0%nat)) as [E|E]; [|lia].
    exfalso. clear -E Hl. induction ops as [|o ops IH]; [discriminate|].
    unfold rate_limit_count in E. destruct o; simpl in *;
      try (apply IH; assumption).
    discriminate.
  - rewrite (Hb now Hl), Hc, H0, HN, Z.add_0_l.
    unfold API_BACKOFF_BASE, API_BACKOFF_MAX. lia.
Qed.

Lemma record_rate_limit_backoff_witness :
  consecutive_429s default = 0 /\
  Forall (fun o => resets o = false)
    [OpRateLimit 10; OpWait (mk_clock 11 11 11 11); OpRateLimit 20] /\
  backoff_until (run default [OpRateLimit 10; OpWait (mk_clock 11 11 11 11); OpRateLimit 20]) - 20 = 120 /\
  (1 <= 2)%nat /\
  backoff_until (run default [OpRateLimit 10; OpWait (mk_clock 11 11 11 11); OpRateLimit 20]) - 20
  = Z.min (60 * 2 ^ (Z.of_nat 2 - 1)) 300.
Proof.
  split; [reflexivity|]. split; [repeat constructor|]. split; [reflexivity|].
  apply (record_rate_limit_backoff default _ 2 20);
    [reflexivity | repeat constructor | reflexivity | reflexivity].
Defined.

Lemma wait_for_slot_tripped_now (s : limiter) (c : wait_clock) :
  API_MAX_CONSECUTIVE_429 <= consecutive_429s s ->
  wait_for_slot s c = (false, [], s).
Proof. intros H. unfold wait_for_slot. apply Z.leb_le in H. by rewrite H. Qed.

Lemma run_no_reset_tripped (s : limiter) (ops : list op) :
  API_MAX_CONSECUTIVE_429 <= consecutive_429s s ->
  Forall (fun o => resets o = false) ops ->
  API_MAX_CONSECUTIVE_429 <= consecutive_429s (run s ops).
Proof.
  intros H Hf. destruct (run_no_reset_invariant s ops Hf) as [Hc _]. lia.
Qed.

(** C2: once the counter has reached 3, every [wait_for_slot] call of any
    later trace without [record_success]/[reset_cycle] returns [false] at
    once, sleeps nothing and leaves the limiter (so [last_request_time])
    unchanged. *)
Theorem wait_for_slot_skips_until_reset (s : limiter) (ops : list op) :
  API_MAX_CONSECUTIVE_429 <= consecutive_429s s ->
  Forall (fun o => resets o = false) ops ->
  forall (i : nat) (c : wait_clock), ops !! i = Some (OpWait c) ->
    step (run s (take i ops)) (OpWait c) = (Some (false, []), run s (take i ops)).
Proof.
  intros H Hf i c Hi. simpl.
  rewrite wait_for_slot_tripped_now; [reflexivity|].
  apply run_no_reset_tripped; [exact H|].
  rewrite <- (take_drop i ops) in Hf. apply Forall_app in Hf as [Hf _]. exact Hf.
Qed.

Lemma wait_for_slot_skips_until_reset_witness :
  let s := run default [OpRateLimit 0; OpRateLimit 1; OpRateLimit 2] in
  let ops := [OpWait (mk_clock 3 3 3 3); OpRateLimit 4; OpWait (mk_clock 5 5 5 5)] in
  step (run s (take 2 ops)) (OpWait (mk_clock 5 5 5 5))
  = (Some (false, []), run s (take 2 ops)).
Proof.
  intros s ops.
  apply (wait_for_slot_skips_until_reset s ops);
    [vm_compute; discriminate | repeat constructor | reflexivity].
Defined.

(** C7: [reset_cycle] clears only the hit counter; [backoff_until] and
    [last_request_time] are kept, so the next [wait_for_slot] is granted but
    does not let the request go before the old backoff deadline. *)
Theorem reset_cycle_keeps_backoff (s : limiter) (c : wait_clock) :
  clock_ok (reset_cycle s) c ->
  consecutive_429s (reset_cycle s) = 0 /\
  backoff_until (reset_cycle s) = backoff_until s /\
  last_request_time (reset_cycle s) = last_request_time s /\
  min_gap (reset_cycle s) = min_gap s /\
  (forall b sl s', wait_for_slot (reset_cycle s) c = (b, sl, s') ->
     b = true /\ backoff_until s <= last_request_time s').
Proof.
  intros Hc. split; [reflexivity|]. split; [reflexivity|].
  split; [reflexivity|]. split; [reflexivity|].
  intros b sl s' Hw. unfold wait_for_slot in Hw. simpl in Hw.
  injection Hw as <- _ <-. split; [reflexivity|]. simpl.
  destruct Hc as [[H12 H23] [H34 [Hb _]]]. simpl in *.
  destruct (Z.lt_ge_cases (t_is_backed_off c) (backoff_until s)) as [Hlt|Hge].
  - specialize (Hb Hlt). lia.
  - lia.
Qed.

Lemma reset_cycle_keeps_backoff_witness :
  let s := record_rate_limit 100 default in
  let c := mk_clock 101 101 160 160 in
  clock_ok (reset_cycle s) c /\
  (forall b sl s', wait_for_slot (reset_cycle s) c = (b, sl, s') ->
     b = true /\ backoff_until s <= last_request_time s').
Proof.
  intros s c.
  assert (Hc : clock_ok (reset_cycle s) c)
    by (subst s c; unfold clock_ok; vm_compute; repeat split; congruence).
  split; [exact Hc|].
  apply (reset_cycle_keeps_backoff s c Hc).
Defined.

Import Registry.

Lemma olarm_api_init_ok (d k n : string) (w : world) :
  world_ok w ->
  exists a w', olarm_api_init d k n w = Py.Ok (a, w') /\ world_ok w' /\
    api_key a = k /\ rate_limiters w' !! k = Some (rate_limiter a) /\
    (forall k' l, rate_limiters w !! k' = Some l -> rate_limiters w' !! k' = Some l).
Proof.
  intros (Hnd & Hlen & Hreg). unfold olarm_api_init.
  destruct (rate_limiters w !! k) as [l|] eqn:E.
  - rewrite E. eexists _, _. split; [reflexivity|].
    split; [split; [exact Hnd | split; [exact Hlen | exact Hreg]]|].
    split; [reflexivity|]. split; [exact E|]. auto.
  - simpl. rewrite lookup_insert_eq.
    assert (Hk : k ∉ created_for w).
    { intros Hin. apply list_elem_of_lookup in Hin as [j Hj].
      apply Hreg in Hj. congruence. }
    eexists _, _. split; [reflexivity|]. simpl.
    split; [|split; [reflexivity|]; split; [apply lookup_insert_eq|]].
    + split; [|split].
      * apply NoDup_app. split; [exact Hnd|]. split; [|apply NoDup_singleton].
        intros x Hx Hx'. apply list_elem_of_singleton in Hx'. subst x. contradiction.
      * cbn [heap created_for]. rewrite !length_app. simpl. lia.
      * intros k' l'. cbn [rate_limiters created_for].
        rewrite lookup_insert, lookup_snoc_Some.
        destruct (decide (k = k')) as [<-|Hne].
        -- split.
           ++ intros H. injection H as <-. right. split; [lia | reflexivity].
           ++ intros [[_ H]|[-> _]].
              ** exfalso. apply Hk. apply list_elem_of_lookup. eauto.
              ** f_equal. lia.
        -- rewrite Hreg. split.
           ++ intros H. left. split; [apply lookup_lt_Some in H; exact H | exact H].
           ++ intros [[_ H]|[_ H]]; [exact H | congruence].
    + intros k' l' H. rewrite lookup_insert_ne; [exact H|]. congruence.
Qed.

Lemma construct_all_ok (reqs : list (string * string)) (w : world) :
  world_ok w ->
  exists apis w', construct_all reqs w = Py.Ok (apis, w') /\ world_ok w' /\
    length apis = length reqs /\
    (forall i a, apis !! i = Some a -> exists d, reqs !! i = Some (d, api_key a)) /\
    (forall a, a ∈ apis -> rate_limiters w' !! api_key a = Some (rate_limiter a)) /\
    (forall k' l, rate_limiters w !! k' = Some l -> rate_limiters w' !! k' = Some l).
Proof.
  revert w. induction reqs as [|[d k] rest IH]; intros w Hw.
  - exists [], w. split; [reflexivity|]. split; [exact Hw|].
    split; [reflexivity|]. split; [intros i a H; discriminate H|].
    split; [intros a Ha; apply elem_of_nil in Ha; contradiction|]. auto.
  - destruct (olarm_api_init_ok d k "Olarm Sensors" w Hw)
      as (a & w1 & Hi & Hw1 & Hka & Hla & Hmono1).
    destruct (IH w1 Hw1) as (apis & w2 & Hc & Hw2 & Hlen & Hkeys & Hrefs & Hmono2).
    exists (a :: apis), w2. simpl. rewrite Hi, Hc.
    split; [reflexivity|]. split; [exact Hw2|]. split; [simpl; lia|].
    split; [|split].
    + intros [|i] b Hb; simpl in Hb.
      * injection Hb as <-. exists d. simpl. by rewrite Hka.
      * apply Hkeys in Hb. exact Hb.
    + intros b Hb. apply elem_of_cons in Hb as [->|Hb].
      * apply Hmono2. rewrite Hka. exact Hla.
      * apply Hrefs. exact Hb.
    + auto.
Qed.

(** C6: constructing any sequence of [OlarmApi] objects from a fresh
    process allocates at most one [OlarmRateLimiter] per API key, and every
    object holds a reference to the limiter allocated for its key, so two
    objects with the same key share one limiter. *)
Theorem rate_limiter_shared_per_key (reqs : list (string * string)) :
  exists apis w, construct_all reqs empty_world = Py.Ok (apis, w) /\
    NoDup (created_for w) /\
    length apis = length reqs /\
    (forall i a, apis !! i = Some a -> exists d, reqs !! i = Some (d, api_key a)) /\
    (forall a, a ∈ apis -> created_for w !! rate_limiter a = Some (api_key a)) /\
    (forall a1 a2, a1 ∈ apis -> a2 ∈ apis -> api_key a1 = api_key a2 ->
       rate_limiter a1 = rate_limiter a2).
Proof.
  assert (H0 : world_ok empty_world).
  { split; [constructor|]. split; [reflexivity|].
    intros k l. simpl. rewrite lookup_empty. split; [discriminate|].
    intros H. rewrite lookup_nil in H. discriminate H. }
  destruct (construct_all_ok reqs empty_world H0)
    as (apis & w & Hc & (Hnd & _ & Hreg) & Hlen & Hkeys & Hrefs & _).
  exists apis, w. split; [exact Hc|]. split; [exact Hnd|]. split; [exact Hlen|].
  split; [exact Hkeys|]. split.
  - intros a Ha. apply Hreg, Hrefs, Ha.
  - intros a1 a2 H1 H2 Hk. apply Hrefs in H1, H2. rewrite Hk in H1. congruence.
Qed.

Import Py Decoders Samples.

Lemma for_each_prefix {A} (body : Z -> result A) (idx : list Z) (acc : list A) :
  exists rs, (for_each body idx acc).1 = acc ++ rs /\
    (forall j r, rs !! j = Some r -> exists i, idx !! j = Some i /\ body i = Ok r) /\
    ((for_each body idx acc).2 = None -> length rs = length idx).
Proof.
  revert acc. induction idx as [|i idx IH]; intros acc; simpl.
  - exists []. rewrite app_nil_r. split; [reflexivity|].
    split; [intros j r H; rewrite lookup_nil in H; discriminate H | reflexivity].
  - destruct (body i) as [a|e] eqn:Hb.
    + destruct (IH (acc ++ [a])) as (rs & H1 & H2 & H3).
      exists (a :: rs). rewrite H1, <- app_assoc. split; [reflexivity|]. split.
      * intros [|j] r Hr; simpl in Hr.
        -- injection Hr as <-. exists i. split; [reflexivity | exact Hb].
        -- apply H2 in Hr. exact Hr.
      * intros Hn. simpl. rewrite H3 by exact Hn. reflexivity.
    + exists []. rewrite app_nil_r. split; [reflexivity|].
      split; [intros j r H; rewrite lookup_nil in H; discriminate H | discriminate].
Qed.

Lemma power_loop_prefix (items : list (string * json)) (zone : Z) (acc : list sensor) :
  exists rs, (power_loop items zone acc).1 = acc ++ rs.
Proof.
  revert zone acc. induction items as [|[key value] items IH]; intros zone acc; simpl.
  - exists []. by rewrite app_nil_r.
  - destruct (int value) as [v|e]; [|exists []; by rewrite app_nil_r].
    destruct (String.eqb key "Batt");
      (match goal with |- context [power_loop items ?z ?a] =>
         destruct (IH z a) as [rs Hrs] end;
       rewrite Hrs, <- app_assoc; eexists; reflexivity).
Qed.

Lemma range_lookup (n : Z) (i : nat) :
  Z.of_nat i < n -> range n !! i = Some (Z.of_nat i).
Proof. intros H. unfold range. rewrite lookup_seqZ_lt by exact H. f_equal. Qed.

Lemma length_range (n : Z) : length (range n) = Z.to_nat n.
Proof. apply length_seqZ. Qed.

Lemma return_partial_ok {A} (r : list A * option exc) (l : list A) :
  return_partial r = Ok l -> l = r.1.
Proof.
  unfold return_partial, catch. destruct r.2 as [e|].
  - case_bool_decide as Hin; [intros Hok; injection Hok as <-; reflexivity | discriminate].
  - intros Hok. injection Hok as <-. reflexivity.
Qed.

(** The first [zonesLimit] records of [get_sensor_states] are the zone
    records, each computed by one loop iteration. *)
Lemma sensor_try_zone (fmt : Z -> result string) (st prof lim : json) (n : Z) (i : nat) (r : sensor) :
  getitem prof "zonesLimit" = Ok lim -> as_index lim = Ok n ->
  Z.of_nat i < n -> (sensor_try fmt st prof).1 !! i = Some r ->
  sensor_zone fmt st prof (Z.of_nat i) = Ok r.
Proof.
  intros Hl Hn Hi Hr. unfold sensor_try in Hr. rewrite Hl in Hr. simpl in Hr. rewrite Hn in Hr.
  destruct (for_each_prefix (sensor_zone fmt st prof) (range n) []) as (rs & H1 & H2 & H3).
  destruct (for_each (sensor_zone fmt st prof) (range n) []) as [data err] eqn:Hf.
  simpl in H1, H3. subst data.
  assert (Hz : forall r', rs !! i = Some r' -> sensor_zone fmt st prof (Z.of_nat i) = Ok r').
  { intros r' Hr'. destruct (H2 i r' Hr') as (i' & Hi' & Hb).
    rewrite range_lookup in Hi' by exact Hi. injection Hi' as <-. exact Hb. }
  destruct err as [e|]; [apply Hz; exact Hr|].
  destruct (last (range n)) as [z|]; [|apply Hz; exact Hr].
  destruct (power_items st) as [items|e]; [|apply Hz; exact Hr].
  destruct (power_loop_prefix items (z + 1) rs) as [rs' Hp]. rewrite Hp in Hr.
  apply Hz. rewrite lookup_app_l in Hr; [exact Hr|].
  rewrite (H3 eq_refl), length_range. lia.
Qed.

(** Peel the successful binds of a hypothesis [bind m k = Ok a]. *)
Ltac inv_ok H :=
  repeat match type of H with
  | bind ?m _ = Ok _ =>
      let E := fresh "E" in destruct m eqn:E; cbn [bind] in H; [|discriminate H]
  | (if ?b then _ else _) = Ok _ =>
      let E := fresh "E" in destruct b eqn:E
  end.

Lemma get_getitem (d : json) (k : string) (dflt v w : json) :
  get d k dflt = Ok v -> getitem d k = Ok w -> v = w.
Proof.
  destruct d; simpl; try discriminate. destruct (assoc kvs k); congruence.
Qed.

Lemma index_len (x v : json) (i m : Z) :
  0 <= i -> index x i = Ok v -> len x = Ok m -> i < m.
Proof.
  intros Hi Hx Hl. destruct x; simpl in Hx, Hl; try discriminate.
  - apply Z.ltb_ge in Hi. rewrite Hi in Hx.
    destruct ((0 <=? i) && (i <? Z.of_nat (String.length s))) eqn:E; [|discriminate].
    apply andb_true_iff in E as [_ E]. apply Z.ltb_lt in E. injection Hl as <-. exact E.
  - apply Z.ltb_ge in Hi. rewrite Hi in Hx.
    destruct ((0 <=? i) && (i <? Z.of_nat (length l))) eqn:E; [|discriminate].
    apply andb_true_iff in E as [_ E]. apply Z.ltb_lt in E. injection Hl as <-. exact E.
Qed.

(** What [zone_char_is] tests: the entry at [zone] exists and, as a
    lowercased string, equals [c]. *)
Lemma zone_char_is_spec (st : json) (zone : Z) (c : string) (b : bool) :
  0 <= zone -> zone_char_is st zone c = Ok b ->
  (b = true <-> exists zs x, get st "zones" (JList []) = Ok zs /\
                 index zs zone = Ok x /\ lower (str x) = c).
Proof.
  intros Hz H. unfold zone_char_is in H.
  destruct (get st "zones" (JList [])) as [zs|] eqn:Hg; cbn [bind] in H; [|discriminate].
  destruct (len zs) as [m|] eqn:Hl; cbn [bind] in H; [|discriminate].
  destruct (zone <? m) eqn:Hlt.
  - destruct (getitem st "zones") as [v|] eqn:Hgi; cbn [bind] in H; [|discriminate].
    pose proof (get_getitem _ _ _ _ _ Hg Hgi) as <-.
    destruct (index zs zone) as [x|] eqn:Hx; cbn [bind] in H; [|discriminate].
    injection H as <-. split.
    + intros E. exists zs, x. split; [reflexivity|]. split; [exact Hx|].
      apply String.eqb_eq, E.
    + intros (zs' & x' & Hg' & Hx' & Hc). injection Hg' as <-.
      rewrite Hx in Hx'. injection Hx' as <-. apply String.eqb_eq, Hc.
  - injection H as <-. split; [discriminate|].
    intros (zs' & x & Hg' & Hx & _). injection Hg' as <-.
    pose proof (index_len _ _ _ _ Hz Hx Hl). apply Z.ltb_ge in Hlt. lia.
Qed.

Lemma on_off_on (b : bool) : (if b then "on" else "off") = "on" <-> b = true.
Proof. destruct b; split; intros H; try reflexivity; discriminate. Qed.

Lemma sensor_zone_state (fmt : Z -> result string) (st prof : json) (zone : Z) (r : sensor) :
  sensor_zone fmt st prof zone = Ok r ->
  s_zone_number r = zone /\ exists b, zone_char_is st zone "a" = Ok b /\
    s_state r = if b then "on" else "off".
Proof.
  intros H. unfold sensor_zone in H. inv_ok H; injection H as <-; simpl; eauto.
Qed.

Lemma bypass_zone_state (fmt : Z -> result string) (st prof : json) (zone : Z) (r : bypass) :
  bypass_zone fmt st prof zone = Ok r ->
  b_zone_number r = zone /\ exists b, zone_char_is st zone "b" = Ok b /\
    b_state r = if b then "on" else "off".
Proof.
  intros H. unfold bypass_zone in H. inv_ok H; injection H as <-; simpl; eauto.
Qed.

Lemma bypass_zone_at (fmt : Z -> result string) (st prof lim : json) (n : Z) (i : nat)
    (l : list bypass) (r : bypass) :
  getitem prof "zonesLimit" = Ok lim -> as_index lim = Ok n ->
  (match (lim <- getitem prof "zonesLimit" ;; as_index lim) with
   | Raise e => ([], Some e)
   | Ok n => for_each (bypass_zone fmt st prof) (range n) []
   end).1 !! i = Some r ->
  Z.of_nat i < n -> bypass_zone fmt st prof (Z.of_nat i) = Ok r.
Proof.
  intros Hl Hn Hr Hi. rewrite Hl in Hr. cbn [bind] in Hr. rewrite Hn in Hr.
  destruct (for_each_prefix (bypass_zone fmt st prof) (range n) []) as (rs & H1 & H2 & _).
  rewrite H1 in Hr. simpl in Hr. destruct (H2 i r Hr) as (i' & Hi' & Hb).
  rewrite range_lookup in Hi' by exact Hi. injection Hi' as <-. exact Hb.
Qed.

(** C5: for every zone index [i < zonesLimit] that a decoder reports, the
    record at position [i] is zone [i]; [get_sensor_states] reports it
    [on] iff the entry at [i] of [deviceState.zones] exists and equals
    "a" case-insensitively, [get_sensor_bypass_states] iff it equals "b";
    every other zone, in particular one beyond the array, is [off]. *)
Theorem zone_state_decoding (zone_fmt bypass_fmt : Z -> result string)
    (devices_json st prof lim : json) (n : Z) :
  getitem devices_json "deviceState" = Ok st ->
  getitem devices_json "deviceProfile" = Ok prof ->
  getitem prof "zonesLimit" = Ok lim -> as_index lim = Ok n ->
  (forall l i r, get_sensor_states zone_fmt devices_json = Ok l ->
     Z.of_nat i < n -> l !! i = Some r ->
     s_zone_number r = Z.of_nat i /\ (s_state r = "on" \/ s_state r = "off") /\
     (s_state r = "on" <-> exists zs x, get st "zones" (JList []) = Ok zs /\
        index zs (Z.of_nat i) = Ok x /\ lower (str x) = "a")) /\
  (forall l i r, get_sensor_bypass_states bypass_fmt devices_json = Ok l ->
     Z.of_nat i < n -> l !! i = Some r ->
     b_zone_number r = Z.of_nat i /\ (b_state r = "on" \/ b_state r = "off") /\
     (b_state r = "on" <-> exists zs x, get st "zones" (JList []) = Ok zs /\
        index zs (Z.of_nat i) = Ok x /\ lower (str x) = "b")).
Proof.
  intros Hst Hprof Hl Hn. split.
  - intros l i r Hs Hi Hr. unfold get_sensor_states in Hs.
    rewrite Hst, Hprof in Hs. cbn [bind] in Hs. apply return_partial_ok in Hs. subst l.
    pose proof (sensor_try_zone zone_fmt st prof lim n i r Hl Hn Hi Hr) as Hz.
    destruct (sensor_zone_state _ _ _ _ _ Hz) as [Hnum (b & Hb & Hs)].
    split; [exact Hnum|]. rewrite Hs, on_off_on.
    split; [destruct b; auto|].
    apply (zone_char_is_spec st (Z.of_nat i) "a" b); [lia | exact Hb].
  - intros l i r Hs Hi Hr. unfold get_sensor_bypass_states in Hs.
    rewrite Hst, Hprof in Hs. cbn [bind] in Hs. apply return_partial_ok in Hs. subst l.
    pose proof (bypass_zone_at bypass_fmt st prof lim n i [] r Hl Hn Hr Hi) as Hz.
    destruct (bypass_zone_state _ _ _ _ _ Hz) as [Hnum (b & Hb & Hs)].
    split; [exact Hnum|]. rewrite Hs, on_off_on.
    split; [destruct b; auto|].
    apply (zone_char_is_spec st (Z.of_nat i) "b" b); [lia | exact Hb].
Qed.


Example sample_sensor_states :
  (l <- get_sensor_states (fun ms => Ok (pretty ms)) sample_device ;; Ok (map s_state l))
  = Ok ["on"; "on"; "off"; "on"; "off"].
Proof. reflexivity. Qed.

Example sample_bypass_states :
  (l <- get_sensor_bypass_states (fun ms => Ok (pretty ms)) sample_device ;; Ok (map b_state l))
  = Ok ["off"; "off"; "on"].
Proof. reflexivity. Qed.

Lemma zone_state_decoding_witness :
  let fmt := fun ms : Z => Ok (pretty ms) in
  (forall l i r, get_sensor_states fmt sample_device = Ok l ->
     Z.of_nat i < 3 -> l !! i = Some r ->
     s_zone_number r = Z.of_nat i /\ (s_state r = "on" \/ s_state r = "off") /\
     (s_state r = "on" <-> exists zs x, get sample_state "zones" (JList []) = Ok zs /\
        index zs (Z.of_nat i) = Ok x /\ lower (str x) = "a")) /\
  (forall l i r, get_sensor_bypass_states fmt sample_device = Ok l ->
     Z.of_nat i < 3 -> l !! i = Some r ->
     b_zone_number r = Z.of_nat i /\ (b_state r = "on" \/ b_state r = "off") /\
     (b_state r = "on" <-> exists zs x, get sample_state "zones" (JList []) = Ok zs /\
        index zs (Z.of_nat i) = Ok x /\ lower (str x) = "b")).
Proof.
  intros fmt.
  apply (zone_state_decoding fmt fmt sample_device sample_state sample_profile (JInt 3) 3);
    reflexivity.
Defined.

Import Readings.

Lemma string_get_None (s : string) (k : nat) :
  String.get k s = None <-> (String.length s <= k)%nat.
Proof.
  revert k. induction s as [|c s IH]; intros k; simpl.
  - split; [lia | reflexivity].
  - destruct k as [|k]; simpl.
    + split; [discriminate | lia].
    + rewrite IH. lia.
Qed.

Lemma index_list (xs : list json) (i : Z) :
  0 <= i ->
  index (JList xs) i =
  match xs !! Z.to_nat i with Some v => Ok v | None => Raise IndexError end.
Proof.
  intros Hi. unfold index. rewrite (proj2 (Z.ltb_ge i 0) Hi).
  destruct ((0 <=? i) && (i <? Z.of_nat (length xs))) eqn:E.
  - reflexivity.
  - rewrite (lookup_ge_None_2 xs (Z.to_nat i)); [reflexivity|].
    apply andb_false_iff in E as [E|E]; [apply Z.leb_gt in E; lia|].
    apply Z.ltb_ge in E. lia.
Qed.

Lemma index_str (s : string) (i : Z) :
  0 <= i ->
  index (JStr s) i =
  match String.get (Z.to_nat i) s with
  | Some c => Ok (JStr (str_of_char c)) | None => Raise IndexError end.
Proof.
  intros Hi. unfold index. rewrite (proj2 (Z.ltb_ge i 0) Hi).
  destruct ((0 <=? i) && (i <? Z.of_nat (String.length s))) eqn:E.
  - reflexivity.
  - rewrite (proj2 (string_get_None s (Z.to_nat i))); [reflexivity|].
    apply andb_false_iff in E as [E|E]; [apply Z.leb_gt in E; lia|].
    apply Z.ltb_ge in E. lia.
Qed.

Lemma item_or_spec (sq d : json) (i : Z) :
  0 <= i ->
  item_or sq i d =
  Ok (match sq with JList xs => stdpp.option.default d (xs !! Z.to_nat i) | _ => d end).
Proof.
  intros Hi. destruct sq as [| | | |xs|]; try reflexivity.
  unfold item_or; cbn [is_list len bind].
  destruct (i <? Z.of_nat (length xs)) eqn:E.
  - rewrite index_list by exact Hi.
    destruct (xs !! Z.to_nat i) eqn:Ex; [reflexivity|].
    apply lookup_ge_None in Ex. apply Z.ltb_lt in E. lia.
  - rewrite (lookup_ge_None_2 xs (Z.to_nat i)); [reflexivity|].
    apply Z.ltb_ge in E. lia.
Qed.

Lemma pgm_on_spec (pst : json) (i : Z) :
  0 <= i ->
  exists b, pgm_on pst i = Ok b /\
    (b = true <-> exists xs x, pst = JList xs /\ xs !! Z.to_nat i = Some x /\
                               lower (str x) = "a").
Proof.
  intros Hi. destruct pst as [| | | |xs|];
    try (exists false; split; [reflexivity|];
         split; [discriminate|intros (xs & x & Hx & _); discriminate]).
  unfold pgm_on; cbn [is_list len bind].
  destruct (i <? Z.of_nat (length xs)) eqn:E.
  - rewrite index_list by exact Hi.
    destruct (xs !! Z.to_nat i) as [x|] eqn:Ex.
    + cbn [bind]. eexists; split; [reflexivity|].
      rewrite String.eqb_eq. split.
      * intros Hx. exists xs, x. auto.
      * intros (xs' & x' & Hxs & Hx' & Hl). injection Hxs as <-.
        rewrite Ex in Hx'. injection Hx' as <-. exact Hl.
    + apply lookup_ge_None in Ex. apply Z.ltb_lt in E. lia.
  - exists false. split; [reflexivity|]. split; [discriminate|].
    intros (xs' & x' & Hxs & Hx' & _). injection Hxs as <-.
    rewrite lookup_ge_None_2 in Hx'; [discriminate|]. apply Z.ltb_ge in E. lia.
Qed.

Lemma char_is_one_spec (s : string) (k : Z) :
  0 <= k ->
  exists b, char_is_one s k = Ok b /\ (b = true <-> String.get (Z.to_nat k) s = Some "1"%char).
Proof.
  intros Hk. unfold char_is_one; cbn [len bind].
  destruct (k <? Z.of_nat (String.length s)) eqn:E.
  - rewrite index_str by exact Hk.
    destruct (String.get (Z.to_nat k) s) as [c|] eqn:Ec.
    + cbn [bind]. eexists; split; [reflexivity|]. unfold eq_str, str_of_char.
      rewrite String.eqb_eq. split.
      * intros Hc. injection Hc as ->. reflexivity.
      * intros Hc. injection Hc as ->. reflexivity.
    + apply string_get_None in Ec. apply Z.ltb_lt in E. lia.
  - exists false. split; [reflexivity|]. split; [discriminate|].
    intros Hc. assert (Hn : String.get (Z.to_nat k) s = None)
      by (apply string_get_None; apply Z.ltb_ge in E; lia).
    congruence.
Qed.

(** One PGM iteration never raises; it skips exactly the unconfigured
    indices, and an emitted record has the fields the setup string and the
    status list give. *)
Lemma pgm_body_spec (pst labs setup : json) (i : Z) :
  0 <= i ->
  (forall e, pgm_body pst labs setup i <> Raise e) /\
  (ok_or_none (pgm_body pst labs setup i) = None <-> pgm_configured setup i = false) /\
  (forall p, ok_or_none (pgm_body pst labs setup i) = Some p ->
     p_pgm_number p = i + 1 /\
     exists v, pgm_entry setup i = Some v /\ v <> JStr "" /\
       (p_enabled p = true <-> String.get 0 (setup_string v) = Some "1"%char) /\
       (p_pulse p = true <-> String.get 2 (setup_string v) = Some "1"%char) /\
       (p_state p = true <-> exists xs x, pst = JList xs /\ xs !! Z.to_nat i = Some x /\
                                          lower (str x) = "a")).
Proof.
  intros Hi. destruct (pgm_on_spec pst i Hi) as (b & Hb & Hbs).
  unfold pgm_body. rewrite Hb. cbn [bind].
  rewrite !item_or_spec by exact Hi. cbn [bind].
  set (v := match setup with JList xs => stdpp.option.default (JStr "") (xs !! Z.to_nat i) | _ => JStr "" end).
  assert (Hconf : pgm_configured setup i = negb (eq_str v "")).
  { unfold pgm_configured, pgm_entry, v.
    destruct setup; try reflexivity. destruct (l !! Z.to_nat i); reflexivity. }
  destruct (eq_str v "") eqn:Ev.
  - rewrite Hconf. split; [discriminate|]. split; [tauto|]. discriminate.
  - destruct (char_is_one_spec (setup_string v) 0 ltac:(lia)) as (en & Hen & Hens).
    destruct (char_is_one_spec (setup_string v) 2 ltac:(lia)) as (pu & Hpu & Hpus).
    rewrite Hen, Hpu. cbn [bind ok_or_none]. rewrite Hconf.
    split; [discriminate|]. split; [split; discriminate|].
    intros p Hp. injection Hp as <-. cbn [p_pgm_number p_enabled p_pulse p_state].
    split; [reflexivity|]. exists v.
    assert (Hentry : pgm_entry setup i = Some v /\ v <> JStr "").
    { clear -Ev. unfold pgm_entry, v in *. destruct setup; try discriminate.
      destruct (l !! Z.to_nat i) as [w|]; [|discriminate].
      simpl in Ev. split; [reflexivity|]. intros Hw. simpl in Hw. rewrite Hw in Ev. discriminate. }
    destruct Hentry as [He Hne]. repeat split; auto; try apply Hens; try apply Hpus;
      try apply Hbs; tauto.
Qed.

Lemma for_each_opt_total {A} (body : Z -> result (option A)) (idx : list Z) (acc : list A) :
  (forall i, i ∈ idx -> forall e, body i <> Raise e) ->
  for_each_opt body idx acc = (acc ++ opt_values (fun i => ok_or_none (body i)) idx, None).
Proof.
  revert acc. induction idx as [|i idx IH]; intros acc Hb; simpl.
  - rewrite app_nil_r. reflexivity.
  - assert (Hi : forall e, body i <> Raise e) by (apply Hb; left).
    assert (Hr : forall j, j ∈ idx -> forall e, body j <> Raise e)
      by (intros j Hj; apply Hb; right; exact Hj).
    destruct (body i) as [[a|]|e] eqn:E; cbn [ok_or_none].
    + rewrite IH by exact Hr. rewrite <- app_assoc. reflexivity.
    + apply IH, Hr.
    + exfalso. exact (Hi e eq_refl).
Qed.

Lemma opt_values_numbers {A} (f : Z -> option A) (num : A -> Z) (conf : Z -> bool)
    (idx : list Z) :
  (forall i, i ∈ idx -> (f i = None <-> conf i = false)) ->
  (forall i a, i ∈ idx -> f i = Some a -> num a = Z.succ i) ->
  map num (opt_values f idx) = map Z.succ (List.filter conf idx).
Proof.
  induction idx as [|i idx IH]; intros Hc Hn; simpl; [reflexivity|].
  assert (Hr1 : forall j, j ∈ idx -> (f j = None <-> conf j = false))
    by (intros j Hj; apply Hc; right; exact Hj).
  assert (Hr2 : forall j a, j ∈ idx -> f j = Some a -> num a = Z.succ j)
    by (intros j a Hj; apply Hn; right; exact Hj).
  pose proof (Hc i ltac:(left)) as Hci.
  destruct (f i) as [a|] eqn:E; destruct (conf i) eqn:C.
  - simpl. rewrite (Hn i a ltac:(left) E). f_equal. apply IH; assumption.
  - exfalso. pose proof (proj2 Hci eq_refl). discriminate.
  - exfalso. pose proof (proj1 Hci eq_refl). discriminate.
  - apply IH; assumption.
Qed.

Lemma opt_values_forall {A} (f : Z -> option A) (P : A -> Prop) (idx : list Z) :
  (forall i a, i ∈ idx -> f i = Some a -> P a) -> Forall P (opt_values f idx).
Proof.
  induction idx as [|i idx IH]; intros H; simpl; [constructor|].
  destruct (f i) as [a|] eqn:E.
  - constructor; [exact (H i a ltac:(left) E)|].
    apply IH. intros j b Hj. apply H. right. exact Hj.
  - apply IH. intros j b Hj. apply H. right. exact Hj.
Qed.

Lemma elem_of_range (i n : Z) : i ∈ range n -> 0 <= i < n.
Proof. unfold range. rewrite elem_of_seqZ. lia. Qed.

Lemma int_raises (x : json) (e : exc) : int x = Raise e -> e = TypeError \/ e = ValueError.
Proof.
  destruct x; simpl; try discriminate; try (intros H; injection H as <-; auto; fail).
  unfold int_of_string. intros H. destruct (match strip s with
    | String "+"%char rest => _ | String "-"%char rest => _ | _ => _ end);
    [discriminate|]. injection H as <-. auto.
Qed.
Lemma range_nonneg (i n : Z) : i ∈ range n -> 0 <= i.
Proof. intros H. apply elem_of_range in H. lia. Qed.

(** C8 (amended): [get_pgm_zones] iterates [i] over [0 .. n-1], where [n]
    is [int(pgmLimit)] when [pgmLimit] is truthy and otherwise the length of
    [pgmLabels] (0 when that is not a list); it emits exactly the indices
    whose [pgmControl] entry exists and is not [""], numbered [i + 1]; an
    entry is [enabled] iff the first character of its setup string is "1",
    [pulse] iff the third is, and [state] iff [deviceState.pgm] is a list
    whose entry [i], converted with [str] and lowercased, is "a". *)
Theorem get_pgm_zones_decoding (devices_json profile state_obj pgm_state labels limit setup : json)
    (l : list pgm) :
  get devices_json "deviceProfile" JNull = Ok profile -> is_dict profile = true ->
  get devices_json "deviceState" (JObj []) = Ok state_obj ->
  get state_obj "pgm" JNull = Ok pgm_state ->
  get profile "pgmLabels" JNull = Ok labels ->
  get profile "pgmLimit" JNull = Ok limit ->
  get profile "pgmControl" JNull = Ok setup ->
  get_pgm_zones devices_json = Ok l ->
  exists n,
    (truthy limit = true -> int limit = Ok n) /\
    (truthy limit = false ->
       n = match py_or labels (JList []) with JList xs => Z.of_nat (length xs) | _ => 0 end) /\
    map p_pgm_number l = map Z.succ (List.filter (pgm_configured (py_or setup (JList []))) (range n)) /\
    Forall (fun p => let i := p_pgm_number p - 1 in
      exists v, pgm_entry (py_or setup (JList [])) i = Some v /\ v <> JStr "" /\
        (p_enabled p = true <-> String.get 0 (setup_string v) = Some "1"%char) /\
        (p_pulse p = true <-> String.get 2 (setup_string v) = Some "1"%char) /\
        (p_state p = true <-> exists xs x, pgm_state = JList xs /\
                                xs !! Z.to_nat i = Some x /\ lower (str x) = "a")) l.
Proof.
  intros Hp Hd Hs Hps Hlab Hlim Hset Hl.
  unfold get_pgm_zones, pgm_config in Hl.
  rewrite Hp in Hl. cbn [bind] in Hl. rewrite Hd in Hl. cbn [negb] in Hl.
  rewrite Hs in Hl. cbn [bind] in Hl. rewrite Hps, Hlab, Hlim, Hset in Hl. cbn [bind] in Hl.
  set (lim0 := py_or limit (JInt 0)) in Hl.
  set (labs := py_or labels (JList [])) in Hl.
  set (stp := py_or setup (JList [])) in *.
  (* the limit actually used *)
  assert (Hlimit : exists lim', (if eq_zero lim0 && is_list labs
                                 then k <- len labs ;; Ok (JInt k) else Ok lim0) = Ok lim' /\
            forall n, int lim' = Ok n ->
              (truthy limit = true -> int limit = Ok n) /\
              (truthy limit = false ->
                 n = match labs with JList xs => Z.of_nat (length xs) | _ => 0 end)).
  { unfold lim0, py_or. destruct (truthy limit) eqn:Ht.
    - assert (Hz : eq_zero limit = false).
      { destruct limit; simpl in Ht |- *; try discriminate; try reflexivity.
        - subst. reflexivity.
        - apply negb_true_iff in Ht. exact Ht. }
      rewrite Hz. cbn [andb]. eexists; split; [reflexivity|].
      intros n Hn. split; [auto|discriminate].
    - cbn [eq_zero Z.eqb]. destruct (is_list labs) eqn:Hlist.
      + destruct labs as [| | | |xs|]; try discriminate. cbn [andb len bind].
        eexists; split; [reflexivity|]. intros n Hn. simpl in Hn. injection Hn as <-.
        split; [discriminate|reflexivity].
      + cbn [andb]. eexists; split; [reflexivity|]. intros n Hn. simpl in Hn.
        injection Hn as <-. split; [discriminate|].
        intros _. destruct labs; try reflexivity. discriminate. }
  destruct Hlimit as (lim' & Hlim' & Hn).
  rewrite Hlim' in Hl. cbn [bind catch] in Hl.
  destruct (int lim') as [n|e] eqn:Hi.
  2:{ cbn [bind catch] in Hl. apply int_raises in Hi.
      rewrite bool_decide_eq_false_2 in Hl; [discriminate|].
      unfold lookup_errors. destruct Hi as [-> | ->]; rewrite !elem_of_cons, elem_of_nil;
      intros [H|[H|H]]; discriminate || contradiction. }
  destruct (Hn n eq_refl) as [Hn1 Hn2].
  cbn [bind] in Hl.
  rewrite for_each_opt_total in Hl.
  2:{ intros i Hin. exact (proj1 (pgm_body_spec pgm_state labs stp i (range_nonneg i n Hin))). }
  unfold return_partial in Hl. cbn [fst snd catch] in Hl. injection Hl as <-.
  exists n. split; [exact Hn1|]. split; [exact Hn2|]. split.
  - apply opt_values_numbers.
    + intros i Hin. exact (proj1 (proj2 (pgm_body_spec pgm_state labs stp i (range_nonneg i n Hin)))).
    + intros i a Hin Ha. rewrite <- Z.add_1_r.
      exact (proj1 (proj2 (proj2 (pgm_body_spec pgm_state labs stp i (range_nonneg i n Hin))) a Ha)).
  - apply opt_values_forall. intros i a Hin Ha.
    destruct (proj2 (proj2 (pgm_body_spec pgm_state labs stp i (range_nonneg i n Hin))) a Ha)
      as [Hnum Hrest].
    cbv zeta. rewrite Hnum. replace (i + 1 - 1) with i by lia. exact Hrest.
Qed.


Lemma get_pgm_zones_decoding_witness :
  exists l, get_pgm_zones sample_pgm_device = Ok l /\
  exists n,
    (truthy (JInt 3) = true -> int (JInt 3) = Ok n) /\
    (truthy (JInt 3) = false ->
       n = match py_or (JList [JStr "Gate"]) (JList []) with
           | JList xs => Z.of_nat (length xs) | _ => 0 end) /\
    map p_pgm_number l = map Z.succ (List.filter
      (pgm_configured (py_or (JList [JStr "101"; JStr "100"; JStr ""]) (JList []))) (range n)) /\
    Forall (fun p => let i := p_pgm_number p - 1 in
      exists v, pgm_entry (py_or (JList [JStr "101"; JStr "100"; JStr ""]) (JList [])) i = Some v /\
        v <> JStr "" /\
        (p_enabled p = true <-> String.get 0 (setup_string v) = Some "1"%char) /\
        (p_pulse p = true <-> String.get 2 (setup_string v) = Some "1"%char) /\
        (p_state p = true <-> exists xs x, JList [JStr "A"; JStr "c"; JStr "a"] = JList xs /\
                                xs !! Z.to_nat i = Some x /\ lower (str x) = "a")) l.
Proof.
  eexists. split; [reflexivity|].
  apply (get_pgm_zones_decoding sample_pgm_device
           (JObj [("pgmLimit", JInt 3); ("pgmLabels", JList [JStr "Gate"]);
                  ("pgmControl", JList [JStr "101"; JStr "100"; JStr ""])])
           (JObj [("pgm", JList [JStr "A"; JStr "c"; JStr "a"])]));
    reflexivity.
Defined.

(** C8 counterexample: the status entry "A" (upper case) is reported as
    on, so [state] does not follow the entry being equal to "a". *)
Lemma get_pgm_zones_upper_case_on :
  exists p, get_pgm_zones sample_pgm_device =
            Ok [p; mk_pgm (JStr "PGM 2") true false false 2] /\
    p_state p = true /\
    index (JList [JStr "A"; JStr "c"; JStr "a"]) 0 = Ok (JStr "A") /\ "A" <> "a".
Proof.
  eexists. split; [reflexivity|]. split; [reflexivity|]. split; [reflexivity|]. discriminate.
Qed.

(** ** Which exceptions a computation can raise *)

Lemma ro_ok {A} (P : exc -> Prop) (a : A) : raises_only P (Ok a).
Proof. intros e H. discriminate H. Qed.

Lemma ro_raise {A} (P : exc -> Prop) (e : exc) : P e -> raises_only (A:=A) P (Raise e).
Proof. intros He e' H. injection H as <-. exact He. Qed.

Lemma ro_bind {A B} (P : exc -> Prop) (m : result A) (k : A -> result B) :
  raises_only P m -> (forall a, raises_only P (k a)) -> raises_only P (bind m k).
Proof.
  intros Hm Hk e. destruct m as [a|e']; simpl; [exact (Hk a e)|].
  intros H. injection H as <-. exact (Hm e' eq_refl).
Qed.

Lemma ro_catch {A} (P : exc -> Prop) (es : list exc) (m : result A) (h : exc -> result A) :
  raises_only (fun e => e ∈ es \/ P e) m -> (forall e, e ∈ es -> raises_only P (h e)) ->
  raises_only P (catch es m h).
Proof.
  intros Hm Hh e. unfold catch. destruct m as [a|e'].
  - discriminate.
  - case_bool_decide as Hin; [apply Hh, Hin|].
    intros He. injection He as <-. destruct (Hm e' eq_refl); [contradiction | assumption].
Qed.

Lemma ro_get (P : exc -> Prop) d k dflt : P AttributeError -> raises_only P (get d k dflt).
Proof.
  intros HP e. destruct d; simpl; try (intros H; injection H as <-; exact HP).
  destruct (assoc kvs k); discriminate.
Qed.

Lemma ro_getitem (P : exc -> Prop) d k :
  P KeyError -> P TypeError -> raises_only P (getitem d k).
Proof.
  intros HK HT e. destruct d; simpl; try (intros H; injection H as <-; assumption).
  destruct (assoc kvs k); [discriminate|]. intros H; injection H as <-; assumption.
Qed.

Lemma ro_len (P : exc -> Prop) x : P TypeError -> raises_only P (len x).
Proof. intros HT e. destruct x; simpl; try discriminate; intros H; injection H as <-; exact HT. Qed.

Lemma ro_as_index (P : exc -> Prop) x : P TypeError -> raises_only P (as_index x).
Proof. intros HT e. destruct x; simpl; try discriminate; intros H; injection H as <-; exact HT. Qed.

Lemma ro_int (P : exc -> Prop) x : P TypeError -> P ValueError -> raises_only P (int x).
Proof. intros HT HV e H. destruct (int_raises x e H) as [-> | ->]; assumption. Qed.

Lemma ro_index (P : exc -> Prop) x i :
  P KeyError -> P IndexError -> P TypeError -> raises_only P (index x i).
Proof.
  intros HK HI HT e. unfold index.
  destruct x; try (intros H; injection H as <-; assumption);
    repeat case_match; try discriminate; intros Hr; injection Hr as <-; assumption.
Qed.

Lemma ro_contains_key (P : exc -> Prop) key x : P TypeError -> raises_only P (contains_key key x).
Proof. intros HT e. destruct x; simpl; try discriminate; intros H; injection H as <-; exact HT. Qed.

Lemma ro_weaken {A} (P Q : exc -> Prop) (m : result A) :
  (forall e, P e -> Q e) -> raises_only P m -> raises_only Q m.
Proof. intros HPQ Hm e He. apply HPQ, Hm, He. Qed.

Lemma ro_return_partial {A} (r : list A * option exc) :
  raises_only (fun e => e ∉ lookup_errors) (return_partial r).
Proof.
  intros e. unfold return_partial, catch. destruct r.2 as [e'|]; [|discriminate].
  case_bool_decide as Hin; [discriminate|]. intros H. injection H as <-. exact Hin.
Qed.

Lemma ro_panel_loop (P : exc -> Prop) body idx acc :
  (forall i, raises_only (fun e => e ∈ [KeyError] \/ P e) (body i)) ->
  raises_only P (panel_loop body idx acc).
Proof.
  revert acc. induction idx as [|i idx IH]; intros acc Hb; simpl; [apply ro_ok|].
  apply ro_bind; [apply ro_catch; [apply Hb | intros; apply ro_ok]|].
  intros [a|]; apply IH, Hb.
Qed.

Lemma ro_ukey_loop (P : exc -> Prop) body idx acc :
  (forall i, raises_only (fun e => e = KeyError \/ P e) (body i)) ->
  raises_only P (ukey_loop body idx acc).
Proof.
  revert acc. induction idx as [|i idx IH]; intros acc Hb; simpl; [apply ro_ok|].
  destruct (body i) as [u|e] eqn:E; [apply IH, Hb|].
  destruct e; try apply ro_ok;
    (apply ro_raise; destruct (Hb i _ E) as [Hk|Hp]; [discriminate Hk | exact Hp]).
Qed.

(** The side conditions: a closed statement about one exception. *)
Ltac exc_side :=
  match goal with
  | |- _ => apply (bool_decide_unpack _); vm_compute; reflexivity
  end.

Ltac ro_step :=
  match goal with
  | |- raises_only _ (Ok _) => apply ro_ok
  | |- raises_only _ (bind _ _) => apply ro_bind; [|intros ?]
  | |- raises_only _ (catch _ _ _) => apply ro_catch; [|intros ? ?]
  | |- raises_only _ (get _ _ _) => apply ro_get; exc_side
  | |- raises_only _ (getitem _ _) => apply ro_getitem; exc_side
  | |- raises_only _ (len _) => apply ro_len; exc_side
  | |- raises_only _ (as_index _) => apply ro_as_index; exc_side
  | |- raises_only _ (int _) => apply ro_int; exc_side
  | |- raises_only _ (index _ _) => apply ro_index; exc_side
  | |- raises_only _ (contains_key _ _) => apply ro_contains_key; exc_side
  | |- raises_only _ (if ?b then _ else _) => destruct b
  | |- raises_only _ (match ?x with _ => _ end) => destruct x
  | |- raises_only _ (let _ := _ in _) => cbv zeta
  end.

Lemma ro_pgm_config dj :
  raises_only (fun e => e ∉ lookup_errors) (pgm_config dj).
Proof. unfold pgm_config. repeat ro_step. Qed.

Lemma ro_ukey_config dj :
  raises_only (fun e => e ∉ lookup_errors) (ukey_config dj).
Proof. unfold ukey_config. repeat ro_step. Qed.

Lemma for_each_first_error {A} (body : Z -> result A) (pre rest : list Z) (k : Z) (e : exc)
    (acc : list A) :
  (forall j, j ∈ pre -> exists r, body j = Ok r) -> body k = Raise e ->
  exists rs, for_each body (pre ++ k :: rest) acc = (acc ++ rs, Some e) /\
    length rs = length pre /\
    (forall j r, rs !! j = Some r -> exists i, pre !! j = Some i /\ body i = Ok r).
Proof.
  revert acc. induction pre as [|i pre IH]; intros acc Hpre Hk; simpl.
  - rewrite Hk. exists []. rewrite app_nil_r. split; [reflexivity|]. split; [reflexivity|].
    intros j r H. rewrite lookup_nil in H. discriminate.
  - destruct (Hpre i ltac:(left)) as [a Ha]. rewrite Ha.
    destruct (IH (acc ++ [a])) as (rs & Hf & Hl & Hrs).
    { intros j Hj. apply Hpre. right. exact Hj. }
    { exact Hk. }
    exists (a :: rs). rewrite Hf, <- app_assoc. split; [reflexivity|].
    split; [simpl; rewrite Hl; reflexivity|].
    intros [|j] r H; simpl in H.
    + injection H as <-. exists i. split; [reflexivity|exact Ha].
    + apply Hrs in H. exact H.
Qed.

Lemma range_split (n k : Z) :
  0 <= k < n -> range n = range k ++ k :: seqZ (k + 1) (n - k - 1).
Proof.
  intros Hk. unfold range. replace n with (k + (n - k)) at 1 by lia.
  rewrite seqZ_app by lia. rewrite Z.add_0_l. f_equal.
  rewrite (seqZ_cons k (n - k)) by lia. reflexivity.
Qed.

Lemma range_lookup_inv (k : Z) (j : nat) (i : Z) : range k !! j = Some i -> i = Z.of_nat j.
Proof. unfold range. rewrite lookup_seqZ. lia. Qed.

(** An error at iteration [k] of a decoder loop, after [k] iterations that
    succeeded: the records of those iterations, then the error. *)
Lemma for_each_range_error {A} (body : Z -> result A) (n k : Z) (e : exc) :
  0 <= k < n ->
  (forall j, 0 <= j < k -> exists r, body j = Ok r) -> body k = Raise e ->
  exists rs, for_each body (range n) [] = (rs, Some e) /\ length rs = Z.to_nat k /\
    (forall j r, rs !! j = Some r -> body (Z.of_nat j) = Ok r).
Proof.
  intros Hk Hpre He. rewrite (range_split n k Hk).
  destruct (for_each_first_error body (range k) (seqZ (k + 1) (n - k - 1)) k e [])
    as (rs & Hf & Hl & Hrs).
  { intros j Hj. apply Hpre. apply elem_of_range in Hj. exact Hj. }
  { exact He. }
  exists rs. rewrite Hf. split; [reflexivity|]. split; [rewrite Hl; apply length_range|].
  intros j r Hj. destruct (Hrs j r Hj) as (i & Hi & Hb).
  apply range_lookup_inv in Hi. subst i. exact Hb.
Qed.

Lemma ukey_loop_error (body : Z -> result ukey) (pre rest : list Z) (k : Z) (e : exc)
    (acc : list ukey) :
  (forall j, j ∈ pre -> exists r, body j = Ok r) -> body k = Raise e ->
  ukey_loop body (pre ++ k :: rest) acc = if bool_decide (e = KeyError) then Ok [] else Raise e.
Proof.
  revert acc. induction pre as [|i pre IH]; intros acc Hpre Hk; simpl.
  - rewrite Hk. destruct e; reflexivity.
  - destruct (Hpre i ltac:(left)) as [a Ha]. rewrite Ha. apply IH; [|exact Hk].
    intros j Hj. apply Hpre. right. exact Hj.
Qed.

Lemma in_lookup_errors (e : exc) : e ∈ lookup_errors <-> e = KeyError \/ e = IndexError.
Proof. unfold lookup_errors. rewrite !elem_of_cons, elem_of_nil. tauto. Qed.

(** C3 (amended): an exception escapes [get_sensor_states] or
    [get_sensor_bypass_states] only from the [deviceState]/[deviceProfile]
    lookups or when it is neither a [KeyError] nor an [IndexError]; a
    [KeyError] escapes [get_panel_states] only from those two lookups; no
    [KeyError] or [IndexError] escapes [get_pgm_zones] or [get_ukey_zones].
    When the zone loop of the sensor or bypass decoder raises a [KeyError]
    or [IndexError] at zone [k], the records of zones [0 .. k-1] are
    returned; [get_ukey_zones] returns [[]] in that case. *)
Theorem decoders_exception_policy :
  (forall fmt dj e, get_sensor_states fmt dj = Raise e ->
     getitem dj "deviceState" = Raise e \/ getitem dj "deviceProfile" = Raise e \/
     e ∉ lookup_errors) /\
  (forall fmt dj e, get_sensor_bypass_states fmt dj = Raise e ->
     getitem dj "deviceState" = Raise e \/ getitem dj "deviceProfile" = Raise e \/
     e ∉ lookup_errors) /\
  (forall dj, get_panel_states dj = Raise KeyError ->
     getitem dj "deviceState" = Raise KeyError \/ getitem dj "deviceProfile" = Raise KeyError) /\
  (forall dj e, get_pgm_zones dj = Raise e -> e ∉ lookup_errors) /\
  (forall dj e, get_ukey_zones dj = Raise e -> e ∉ lookup_errors) /\
  (forall fmt dj st prof lim n k e,
     getitem dj "deviceState" = Ok st -> getitem dj "deviceProfile" = Ok prof ->
     getitem prof "zonesLimit" = Ok lim -> as_index lim = Ok n -> 0 <= k < n ->
     (forall j, 0 <= j < k -> exists r, sensor_zone fmt st prof j = Ok r) ->
     sensor_zone fmt st prof k = Raise e -> e ∈ lookup_errors ->
     exists l, get_sensor_states fmt dj = Ok l /\ length l = Z.to_nat k /\
       (forall j r, l !! j = Some r -> sensor_zone fmt st prof (Z.of_nat j) = Ok r)) /\
  (forall fmt dj st prof lim n k e,
     getitem dj "deviceState" = Ok st -> getitem dj "deviceProfile" = Ok prof ->
     getitem prof "zonesLimit" = Ok lim -> as_index lim = Ok n -> 0 <= k < n ->
     (forall j, 0 <= j < k -> exists r, bypass_zone fmt st prof j = Ok r) ->
     bypass_zone fmt st prof k = Raise e -> e ∈ lookup_errors ->
     exists l, get_sensor_bypass_states fmt dj = Ok l /\ length l = Z.to_nat k /\
       (forall j r, l !! j = Some r -> bypass_zone fmt st prof (Z.of_nat j) = Ok r)) /\
  (forall dj labels limit state n k e,
     ukey_config dj = Ok (Some (labels, limit, state)) -> as_index limit = Ok n -> 0 <= k < n ->
     (forall j, 0 <= j < k -> exists u, ukey_body labels state j = Ok u) ->
     ukey_body labels state k = Raise e -> e ∈ lookup_errors ->
     get_ukey_zones dj = Ok []).
Proof.
  split; [|split; [|split; [|split; [|split; [|split; [|split]]]]]].
  - intros fmt dj e H. unfold get_sensor_states in H.
    destruct (getitem dj "deviceState") as [st|e'] eqn:E1; [|left; cbn [bind] in H; injection H as ->; reflexivity].
    destruct (getitem dj "deviceProfile") as [prof|e'] eqn:E2; [|right; left; cbn [bind] in H; injection H as ->; reflexivity].
    right; right. exact (ro_return_partial _ e H).
  - intros fmt dj e H. unfold get_sensor_bypass_states in H.
    destruct (getitem dj "deviceState") as [st|e'] eqn:E1; [|left; cbn [bind] in H; injection H as ->; reflexivity].
    destruct (getitem dj "deviceProfile") as [prof|e'] eqn:E2; [|right; left; cbn [bind] in H; injection H as ->; reflexivity].
    right; right. exact (ro_return_partial _ e H).
  - intros dj H. unfold get_panel_states in H.
    destruct (getitem dj "deviceState") as [st|e'] eqn:E1; [|left; cbn [bind] in H; injection H as ->; reflexivity].
    destruct (getitem dj "deviceProfile") as [prof|e'] eqn:E2; [exfalso|right; cbn [bind] in H; injection H as ->; reflexivity].
    cbn [bind] in H.
    assert (Hro : raises_only (fun e => e <> KeyError)
      (olarm_zones <- get prof "areasLabels" (JList []) ;; d <- len olarm_zones ;;
       area_count <- get prof "areasLimit" (JInt d) ;; n <- as_index area_count ;;
       panel_loop (panel_area st olarm_zones) (range n) [])).
    { repeat ro_step. apply ro_panel_loop. intros i. unfold panel_area.
      apply ro_weaken with (P := fun e => e ∈ [KeyError] \/ e <> KeyError).
      { tauto. }
      intros e _. destruct (decide (e = KeyError)) as [->|]; [left; left | right; assumption]. }
    exact (Hro KeyError H eq_refl).
  - intros dj e H. unfold get_pgm_zones in H.
    destruct (pgm_config dj) as [cfg|e'] eqn:E; cbn [bind] in H.
    + destruct cfg as [[[[pst labs] lim] stp]|]; [|discriminate].
      refine (ro_catch (fun e => e ∉ lookup_errors) lookup_errors _ _ _ _ e H).
      * intros e' _. destruct (decide (e' ∈ lookup_errors)); [left|right]; assumption.
      * intros; apply ro_ok.
    + injection H as <-. exact (ro_pgm_config dj e' E).
  - intros dj e H. unfold get_ukey_zones in H.
    destruct (ukey_config dj) as [cfg|e'] eqn:E; cbn [bind] in H.
    + destruct cfg as [[[labs lim] stp]|]; [|discriminate].
      refine (ro_catch (fun e => e ∉ lookup_errors) lookup_errors _ _ _ _ e H).
      * intros e' _. destruct (decide (e' ∈ lookup_errors)); [left|right]; assumption.
      * intros; apply ro_ok.
    + injection H as <-. exact (ro_ukey_config dj e' E).
  - intros fmt dj st prof lim n k e H1 H2 H3 H4 Hk Hpre He Hlk.
    unfold get_sensor_states. rewrite H1, H2. cbn [bind].
    unfold sensor_try. rewrite H3. cbn [bind]. rewrite H4.
    destruct (for_each_range_error (sensor_zone fmt st prof) n k e Hk Hpre He)
      as (rs & Hf & Hl & Hrs).
    rewrite Hf. unfold return_partial, catch. cbn [fst snd].
    rewrite bool_decide_eq_true_2 by exact Hlk.
    exists rs. split; [reflexivity|]. split; assumption.
  - intros fmt dj st prof lim n k e H1 H2 H3 H4 Hk Hpre He Hlk.
    unfold get_sensor_bypass_states. rewrite H1, H2. cbn [bind]. rewrite H3. cbn [bind]. rewrite H4.
    destruct (for_each_range_error (bypass_zone fmt st prof) n k e Hk Hpre He)
      as (rs & Hf & Hl & Hrs).
    rewrite Hf. unfold return_partial, catch. cbn [fst snd].
    rewrite bool_decide_eq_true_2 by exact Hlk.
    exists rs. split; [reflexivity|]. split; assumption.
  - intros dj labels limit state n k e Hc Hn Hk Hpre He Hlk.
    unfold get_ukey_zones. rewrite Hc. cbn [bind]. rewrite Hn. cbn [bind].
    rewrite (range_split n k Hk).
    rewrite (ukey_loop_error _ (range k) _ k e).
    + apply in_lookup_errors in Hlk. unfold catch.
      destruct Hlk as [-> | ->]; reflexivity.
    + intros j Hj. apply Hpre. apply elem_of_range in Hj. exact Hj.
    + exact He.
Qed.

(** C3 counterexample: a device JSON without [deviceState] makes
    [get_sensor_states] raise [KeyError]; a null [deviceState] makes
    [get_pgm_zones] raise [AttributeError]; a non-numeric [ukeysControl]
    entry makes [get_ukey_zones] raise [ValueError]; and a [ukeysControl]
    list shorter than [ukeysLimit] makes [get_ukey_zones] return [[]]
    although the first key decodes. *)
Lemma decoders_raise_counterexample :
  get_sensor_states (fun ms => Ok (pretty ms)) (JObj []) = Raise KeyError /\
  get_pgm_zones (JObj [("deviceProfile", JObj []); ("deviceState", JNull)]) = Raise AttributeError /\
  get_ukey_zones (JObj [("deviceProfile", JObj [("ukeysLabels", JList [JStr "Gate"]);
      ("ukeysLimit", JInt 1); ("ukeysControl", JList [JStr "on"])])]) = Raise ValueError /\
  get_ukey_zones (JObj [("deviceProfile", JObj [("ukeysLabels", JList [JStr "Gate"; JStr "Door"]);
      ("ukeysLimit", JInt 2); ("ukeysControl", JList [JStr "1"])])]) = Ok [] /\
  ukey_body (JList [JStr "Gate"; JStr "Door"]) (JList [JStr "1"]) 0 = Ok (mk_ukey (JStr "Gate") true 1) /\
  ukey_body (JList [JStr "Gate"; JStr "Door"]) (JList [JStr "1"]) 1 = Raise IndexError.
Proof. repeat split; reflexivity. Qed.

Import Http.

Lemma action_reply_spec (resp : json) :
  (action_reply resp = Ok true <->
     exists st, getitem resp "actionStatus" = Ok st /\ lower (str st) = "ok") /\
  (action_reply_fine resp = true -> exists b, action_reply resp = Ok b) /\
  (forall e, action_reply resp = Raise e -> action_reply_fine resp = false).
Proof.
  unfold action_reply, action_reply_fine.
  destruct resp as [| | | | |kvs]; cbn [getitem bind];
    try (split; [split; [discriminate | intros (st & H & _); discriminate] |
                 split; [discriminate | reflexivity]]).
  unfold has_key.
  destruct (assoc kvs "actionStatus") as [st|] eqn:Hst; cbn [bind].
  - destruct (String.eqb (lower (str st)) "ok") eqn:Hok; cbn [bind orb].
    + split; [|split; [intros _; eexists; reflexivity | discriminate]].
      split; [intros _; exists st; split; [reflexivity | apply String.eqb_eq; exact Hok]|].
      reflexivity.
    + assert (Hnot : forall b, Ok b = Ok true -> b = true) by congruence.
      destruct (assoc kvs "actionCmd"); cbn [bind andb];
      [destruct (assoc kvs "deviceName"); cbn [bind andb];
       [destruct (assoc kvs "actionMsg"); cbn [bind andb]|]|];
      rewrite ?Hst; cbn [bind]; rewrite ?Hok;
      (split; [split; [discriminate | intros (st' & H & Hl); injection H as <-;
                                       apply String.eqb_eq in Hl; congruence] |]);
      (split; [intros H; try discriminate H; eexists; reflexivity | ]);
      intros e H; try discriminate H; reflexivity.
  - split; [split; [discriminate | intros (st' & H & _); discriminate] |].
    split; [discriminate | reflexivity].
Qed.

(** C4 (amended): [send_action] returns [true] iff the limiter grants the
    slot, the status is not 429, the reply has a JSON content type and
    parses, and its [actionStatus] is "ok" case-insensitively; it returns
    [false] without raising when the slot is denied, on a connection
    failure, on status 429 and on a non-JSON content type, and returns
    without raising when the parsed reply is a dict holding [actionStatus]
    (and, when that is not "ok", the [actionCmd], [deviceName] and
    [actionMsg] it logs); it raises only on a JSON-typed reply that does
    not parse or is not such a dict. *)
Theorem send_action_outcome (s : limiter) (c : wait_clock) (now : Z) (t : transport) :
  (fst (send_action s c now t) = Ok true <->
     (wait_for_slot s c).1.1 = true /\
     exists r resp st, t = Reply r /\ status r <> 429 /\ response_json r = Ok resp /\
       getitem resp "actionStatus" = Ok st /\ lower (str st) = "ok") /\
  ((wait_for_slot s c).1.1 = false \/ (exists msg, t = ConnectorError msg) \/
   (exists r, t = Reply r /\ (status r = 429 \/ json_content_type r = false)) ->
   fst (send_action s c now t) = Ok false) /\
  (forall r resp, t = Reply r -> parsed r = Some resp -> action_reply_fine resp = true ->
     exists b, fst (send_action s c now t) = Ok b) /\
  (forall e, fst (send_action s c now t) = Raise e ->
     exists r, t = Reply r /\ status r <> 429 /\ json_content_type r = true /\
       (parsed r = None \/ exists resp, parsed r = Some resp /\ action_reply_fine resp = false)).
Proof.
  unfold send_action. destruct (wait_for_slot s c) as [[g sl] s1]. cbn [fst].
  destruct g; cbn [negb].
  2:{ split; [split; [discriminate | intros [H _]; discriminate]|].
      split; [intros _; reflexivity|]. split; [intros; eexists; reflexivity|].
      intros e H; discriminate H. }
  destruct t as [msg|r].
  { split; [split; [discriminate | intros (_ & r & resp & st & H & _); discriminate]|].
    split; [intros _; reflexivity|]. split; [intros r resp H; discriminate H|].
    intros e H; discriminate H. }
  destruct (Z.eqb_spec (status r) 429) as [H429|H429]; cbn [fst].
  { split; [split; [discriminate | intros (_ & r' & resp & st & H & Hs & _);
                                   injection H as <-; contradiction]|].
    split; [intros _; reflexivity|]. split; [intros; eexists; reflexivity|].
    intros e H; discriminate H. }
  unfold response_json. destruct (json_content_type r) eqn:Hct.
  - destruct (parsed r) as [resp|] eqn:Hp; cbn [fst].
    + destruct (action_reply_spec resp) as (Htrue & Hfine & Hraise).
      split; [split|].
      * intros H. split; [reflexivity|]. apply Htrue in H as (st & Hst & Hl).
        exists r, resp, st. repeat split; auto. rewrite Hct, Hp. reflexivity.
      * intros (_ & r' & resp' & st & Hr & _ & Hj & Hst & Hl). injection Hr as <-.
        rewrite Hct, Hp in Hj. injection Hj as <-. apply Htrue. exists st. auto.
      * split; [intros [H|[(m & H)|(r' & H & [H'|H'])]];
                [discriminate | discriminate | injection H as <-; contradiction
                | injection H as <-; congruence]|].
        split; [intros r' resp' Hr Hp' Hf; injection Hr as <-; rewrite Hp in Hp';
                injection Hp' as <-; apply Hfine, Hf|].
        intros e He. exists r. repeat split; auto. right. exists resp. split; auto.
        apply (Hraise e He).
    + split; [split; [discriminate|]|].
      { intros (_ & r' & resp' & st & Hr & _ & Hj & _). injection Hr as <-.
        rewrite Hct, Hp in Hj. discriminate. }
      split; [intros [H|[(m & H)|(r' & H & [H'|H'])]];
              [discriminate | discriminate | injection H as <-; contradiction
              | injection H as <-; congruence]|].
      split; [intros r' resp' Hr Hp'; injection Hr as <-; congruence|].
      intros e He. exists r. repeat split; auto.
  - cbn [fst]. split; [split; [discriminate|]|].
    { intros (_ & r' & resp' & st & Hr & _ & Hj & _). injection Hr as <-.
      rewrite Hct in Hj. discriminate. }
    split; [intros _; reflexivity|]. split; [intros; eexists; reflexivity|].
    intros e H; discriminate H.
Qed.

(** C4 counterexample: a 429 reply whose JSON body has [actionStatus]
    "ok" gives [false]; a JSON-typed reply that does not parse raises
    [JSONDecodeError]; a reply with [actionStatus] "failed" and none of
    the logged fields raises [KeyError]. *)
Lemma send_action_counterexample :
  fst (send_action default sample_clock 100 (json_reply 429 (JObj [("actionStatus", JStr "ok")])))
    = Ok false /\
  fst (send_action default sample_clock 100 (Reply (mk_response 200 true "<html>" None)))
    = Raise JSONDecodeError /\
  fst (send_action default sample_clock 100 (json_reply 200 (JObj [("actionStatus", JStr "failed")])))
    = Raise KeyError.
Proof. repeat split; reflexivity. Qed.

(** C9 counterexample: on the same non-JSON replies the two methods
    disagree. The text "forbidden" is an authentication failure for
    [get_device_json] but not for [get_all_devices]; "too many requests"
    makes only [get_device_json] call [record_rate_limit]; on status 502,
    "Too Many Requests" makes only [get_all_devices] call it. *)
Lemma device_list_classification_differs :
  (get_device_json default sample_clock 100 (text_reply 403 "forbidden")).2 = [LogForbidden] /\
  (get_all_devices default sample_clock 100 (text_reply 403 "forbidden")).2
    = [LogTextInsteadOfJson] /\
  consecutive_429s (get_device_json default sample_clock 100
                      (text_reply 200 "too many requests")).1.2 = 1 /\
  consecutive_429s (get_all_devices default sample_clock 100
                      (text_reply 200 "too many requests")).1.2 = 0 /\
  consecutive_429s (get_device_json default sample_clock 100
                      (text_reply 502 "Too Many Requests")).1.2 = 0 /\
  consecutive_429s (get_all_devices default sample_clock 100
                      (text_reply 502 "Too Many Requests")).1.2 = 1.
Proof. repeat split; reflexivity. Qed.

Lemma assoc_set_same (kvs : list (string * json)) (k : string) (v : json) :
  assoc (assoc_set kvs k v) k = Some v.
Proof.
  induction kvs as [|[k' v'] kvs IH]; simpl.
  - rewrite String.eqb_refl. reflexivity.
  - destruct (String.eqb k k') eqn:E; simpl; rewrite E; [reflexivity | exact IH].
Qed.

Lemma existsb_skipped (cmd : json) :
  In cmd (map JStr skipped_cmds) -> existsb (fun s => eq_str cmd s) skipped_cmds = true.
Proof.
  intros H. apply existsb_exists. apply in_map_iff in H as (x & <- & Hx).
  exists x. split; [exact Hx|]. simpl. apply String.eqb_refl.
Qed.

Lemma selects_no_match (area change : json) :
  no_match area change -> selects area no_user change = Ok false.
Proof.
  intros (kvs & cmd & -> & Hcmd & H). unfold selects. cbn [getitem]. rewrite Hcmd. cbn [bind].
  destruct (existsb (fun s => eq_str cmd s) skipped_cmds) eqn:Hs; [reflexivity|].
  destruct H as [H | (num & n & a & Hnum & Hn & Ha & H)].
  { rewrite existsb_skipped in Hs by exact H. discriminate. }
  rewrite Hnum. cbn [bind]. rewrite Hn. cbn [bind]. rewrite Ha. cbn [bind].
  destruct (Z.eqb_spec n a) as [<-|Hne]; cbn [negb]; [|reflexivity].
  destruct H as [H | (ac & w & Hac & Hw & Hle)]; [contradiction|].
  cbn [getitem assoc no_user String.eqb]. simpl. rewrite Hac. cbn [bind]. rewrite Hw. cbn [bind].
  f_equal. apply Z.ltb_ge. exact Hle.
Qed.

Lemma changed_loop_no_match (area : json) (changes : list json) :
  Forall (no_match area) changes -> changed_loop area no_user changes = Ok no_user.
Proof.
  induction 1 as [|ch rest Hch _ IH]; [reflexivity|].
  simpl. rewrite selects_no_match by exact Hch. exact IH.
Qed.

(** The record [get_changed_by_json] converts holds an [actionCreated]
    that [int] accepts. *)
Lemma selects_true (area rd change : json) :
  selects area rd change = Ok true ->
  exists kvs ac z, change = JObj kvs /\ assoc kvs "actionCreated" = Some ac /\ int ac = Ok z.
Proof.
  unfold selects. intros H.
  destruct (getitem change "actionCmd") as [cmd|]; cbn [bind] in H; [|discriminate].
  destruct (existsb _ _); [discriminate|].
  destruct (getitem change "actionNum") as [num|]; cbn [bind] in H; [|discriminate].
  destruct (int num); cbn [bind] in H; [|discriminate].
  destruct (int area); cbn [bind] in H; [|discriminate].
  destruct (negb _); [discriminate|].
  destruct (getitem rd "actionCreated") as [cur|]; cbn [bind] in H; [|discriminate].
  destruct (int cur); cbn [bind] in H; [|discriminate].
  destruct change as [| | | | |kvs]; cbn [getitem bind] in H; try discriminate.
  destruct (assoc kvs "actionCreated") as [ac|] eqn:Hac; cbn [bind] in H; [|discriminate].
  destruct (int ac) as [z|] eqn:Hz; cbn [bind] in H; [|discriminate].
  exists kvs, ac, z. auto.
Qed.

Lemma changed_loop_record (area rd rd' : json) (changes : list json) :
  (exists kvs ac z, rd = JObj kvs /\ assoc kvs "actionCreated" = Some ac /\ int ac = Ok z) ->
  changed_loop area rd changes = Ok rd' ->
  exists kvs ac z, rd' = JObj kvs /\ assoc kvs "actionCreated" = Some ac /\ int ac = Ok z.
Proof.
  revert rd. induction changes as [|ch rest IH]; intros rd Hrd H; simpl in H.
  - injection H as <-. exact Hrd.
  - destruct (selects area rd ch) as [b|e] eqn:Hs; cbn [bind] in H; [|discriminate].
    destruct b; [exact (IH ch (selects_true area rd ch Hs) H) | exact (IH rd Hrd H)].
Qed.

Lemma stamp_created_text (fmt : Z -> result string) (rd rd' : json) :
  (forall z, fmt z <> Raise TypeError) ->
  (exists kvs ac z, rd = JObj kvs /\ assoc kvs "actionCreated" = Some ac /\ int ac = Ok z) ->
  stamp_created fmt rd = Ok rd' -> exists txt, getitem rd' "actionCreated" = Ok (JStr txt).
Proof.
  intros Hf (kvs & ac & z & -> & Hac & Hz). unfold stamp_created. cbn [getitem]. rewrite Hac.
  cbn [bind]. rewrite Hz. cbn [bind].
  destruct (fmt z) as [txt|e] eqn:Ht; cbn [bind setitem catch].
  - intros H. injection H as <-. exists txt. cbn [getitem]. rewrite assoc_set_same. reflexivity.
  - case_bool_decide as Hin; [|discriminate].
    apply list_elem_of_singleton in Hin. subst e. exfalso. exact (Hf z Ht).
Qed.

(** On a sample history, the area-arm of area 1 is selected and its stamp
    is formatted; area 2 has no entry and gets the "No User" record. *)
Example sample_changed_by :
  fst (get_changed_by_json (fun z => Ok (pretty z)) (JInt 1) RateLimiter.default
         sample_clock 100 (json_reply 200 sample_changes)) =
    Ok (JObj [("actionCmd", JStr "area-arm"); ("actionNum", JInt 1);
              ("actionCreated", JStr "60"); ("userFullname", JStr "B")]) /\
  fst (get_changed_by_json (fun z => Ok (pretty z)) (JInt 2) RateLimiter.default
         sample_clock 100 (json_reply 200 sample_changes)) =
    Ok (JObj [("userFullname", JStr "No User"); ("actionCreated", JStr "0");
              ("actionCmd", JNull)]).
Proof. split; vm_compute; reflexivity. Qed.

(** C10: the early returns of [get_changed_by_json] (slot denied,
    connection failure, status 404 or 429) give the initial record with
    [actionCreated] 0; a JSON action list with no entry for [area] gives
    "No User" and [None] with [actionCreated] the text of timestamp 0; and
    when the time formatting raises no [TypeError], every other record
    returned has a text [actionCreated]. *)
Theorem changed_by_default_record (fmt : Z -> result string) :
  (forall area s c now t,
     (wait_for_slot s c).1.1 = false \/ (exists msg, t = ConnectorError msg) \/
     (exists r, t = Reply r /\ (status r = 404 \/ status r = 429)) ->
     fst (get_changed_by_json fmt area s c now t) = Ok no_user) /\
  (forall area s c now r changes txt,
     (wait_for_slot s c).1.1 = true -> status r <> 404 -> status r <> 429 ->
     response_json r = Ok (JList changes) -> Forall (no_match area) changes ->
     fmt 0 = Ok txt ->
     fst (get_changed_by_json fmt area s c now (Reply r)) =
       Ok (JObj [("userFullname", JStr "No User"); ("actionCreated", JStr txt);
                 ("actionCmd", JNull)])) /\
  (forall area s c now r rd,
     (forall z, fmt z <> Raise TypeError) ->
     (wait_for_slot s c).1.1 = true -> status r <> 404 -> status r <> 429 ->
     fst (get_changed_by_json fmt area s c now (Reply r)) = Ok rd ->
     exists txt, getitem rd "actionCreated" = Ok (JStr txt)).
Proof.
  assert (Hno : exists kvs ac z, no_user = JObj kvs /\ assoc kvs "actionCreated" = Some ac /\
                                  int ac = Ok z) by (do 3 eexists; split; [reflexivity | split; reflexivity]).
  split; [|split].
  - intros area s c now t H. unfold get_changed_by_json.
    destruct (wait_for_slot s c) as [[g sl] s1]. cbn [fst] in H.
    destruct g; cbn [negb]; [|reflexivity].
    destruct H as [H | [(msg & ->) | (r & -> & [H | H])]]; [discriminate | reflexivity | |].
    + rewrite H. reflexivity.
    + rewrite H. destruct (Z.eqb_spec 429 404); [reflexivity|]. rewrite Z.eqb_refl. reflexivity.
  - intros area s c now r changes txt Hg H404 H429 Hj Hm Ht. unfold get_changed_by_json.
    destruct (wait_for_slot s c) as [[g sl] s1]. cbn [fst] in Hg. subst g. cbn [negb].
    rewrite (proj2 (Z.eqb_neq _ _) H404), (proj2 (Z.eqb_neq _ _) H429), Hj. cbn [fst iter_items bind].
    rewrite changed_loop_no_match by exact Hm. cbn [bind].
    unfold stamp_created. simpl. rewrite Ht. reflexivity.
  - intros area s c now r rd Hf Hg H404 H429 H. unfold get_changed_by_json in H.
    destruct (wait_for_slot s c) as [[g sl] s1]. cbn [fst] in Hg. subst g. cbn [negb] in H.
    rewrite (proj2 (Z.eqb_neq _ _) H404), (proj2 (Z.eqb_neq _ _) H429) in H.
    destruct (response_json r) as [changes|e]; cbn [fst] in H.
    + destruct (iter_items changes) as [items|e]; cbn [bind] in H; [|discriminate].
      destruct (changed_loop area no_user items) as [rd0|e] eqn:Hl; cbn [bind] in H; [|discriminate].
      exact (stamp_created_text fmt rd0 rd Hf (changed_loop_record area no_user rd0 items Hno Hl) H).
    + destruct e; try discriminate.
      exact (stamp_created_text fmt no_user rd Hf Hno H).
Qed.

(* ================================================================== *)
(** * Further properties of the module *)

Import RateLimiter Backoff.

(** X1: a request that [wait_for_slot] lets through is stamped at or after
    the end of the backoff window and at least [min_gap] after the previous
    request, and that stamp becomes [last_request_time]. *)
Theorem wait_for_slot_spacing (s : limiter) (c : wait_clock) :
  clock_ok s c -> (wait_for_slot s c).1.1 = true ->
  backoff_until s <= t_stamp c /\ last_request_time s + min_gap s <= t_stamp c /\
  last_request_time (wait_for_slot s c).2 = t_stamp c.
Proof.
  intros (H1 & H2 & H3 & H4). unfold wait_for_slot.
  destruct (API_MAX_CONSECUTIVE_429 <=? consecutive_429s s); cbn; [discriminate|].
  intros _. split; [|split; [|reflexivity]].
  - destruct (Z.ltb_spec (t_is_backed_off c) (backoff_until s)) as [Hb|Hb].
    + specialize (H3 Hb). lia.
    + lia.
  - destruct (Z.ltb_spec (t_now c - last_request_time s) (min_gap s)) as [Hg|Hg].
    + specialize (H4 Hg). lia.
    + lia.
Qed.

Lemma wait_for_slot_spacing_witness :
  clock_ok (record_rate_limit 10 RateLimiter.default) (mk_clock 20 21 70 71) /\
  (wait_for_slot (record_rate_limit 10 RateLimiter.default) (mk_clock 20 21 70 71)).1.1 = true /\
  (backoff_until (record_rate_limit 10 RateLimiter.default) <= 71 /\
   last_request_time (record_rate_limit 10 RateLimiter.default) +
     min_gap (record_rate_limit 10 RateLimiter.default) <= 71 /\
   last_request_time (wait_for_slot (record_rate_limit 10 RateLimiter.default)
                        (mk_clock 20 21 70 71)).2 = 71).
Proof.
  assert (Hc : clock_ok (record_rate_limit 10 RateLimiter.default) (mk_clock 20 21 70 71))
    by (unfold clock_ok; simpl; unfold API_BACKOFF_BASE, API_BACKOFF_MAX, API_MIN_REQUEST_GAP; simpl; lia).
  assert (Hg : (wait_for_slot (record_rate_limit 10 RateLimiter.default)
                 (mk_clock 20 21 70 71)).1.1 = true) by reflexivity.
  split; [exact Hc|]. split; [exact Hg|].
  exact (wait_for_slot_spacing _ (mk_clock 20 21 70 71) Hc Hg).
Defined.

Lemma pow2_pos (k : Z) : 0 <= k -> 1 <= 2 ^ k.
Proof. intros Hk. pose proof (Z.pow_pos_nonneg 2 k ltac:(lia) Hk). lia. Qed.

(** X2: [is_backed_off] holds exactly while [backoff_remaining] is
    positive; right after [record_rate_limit] at time [now] (with a
    non-negative counter) the remaining backoff is between 60 and 300
    seconds, the limiter is backed off for at least the next 60 seconds,
    and it is no longer backed off from [now + 300] on. *)
Theorem record_rate_limit_window (s : limiter) (now : Z) :
  0 <= consecutive_429s s ->
  (forall l t, is_backed_off l t = true <-> 0 < backoff_remaining l t) /\
  60 <= backoff_remaining (record_rate_limit now s) now <= 300 /\
  (forall t, now <= t < now + 60 -> is_backed_off (record_rate_limit now s) t = true) /\
  (forall t, now + 300 <= t -> is_backed_off (record_rate_limit now s) t = false /\
                              backoff_remaining (record_rate_limit now s) t = 0).
Proof.
  intros Hc. unfold is_backed_off, backoff_remaining, record_rate_limit; cbn [backoff_until].
  unfold API_BACKOFF_BASE, API_BACKOFF_MAX.
  pose proof (pow2_pos (consecutive_429s s + 1 - 1) ltac:(lia)) as Hp.
  split; [|split; [|split]].
  - intros l t. rewrite Z.ltb_lt. lia.
  - lia.
  - intros t Ht. apply Z.ltb_lt. lia.
  - intros t Ht. rewrite (proj2 (Z.ltb_ge _ _)) by lia. split; [reflexivity | lia].
Qed.

Lemma record_rate_limit_window_witness :
  0 <= consecutive_429s RateLimiter.default /\
  ((forall l t, is_backed_off l t = true <-> 0 < backoff_remaining l t) /\
   60 <= backoff_remaining (record_rate_limit 5 RateLimiter.default) 5 <= 300 /\
   (forall t, 5 <= t < 5 + 60 -> is_backed_off (record_rate_limit 5 RateLimiter.default) t = true) /\
   (forall t, 5 + 300 <= t -> is_backed_off (record_rate_limit 5 RateLimiter.default) t = false /\
                          backoff_remaining (record_rate_limit 5 RateLimiter.default) t = 0)).
Proof.
  assert (H : 0 <= consecutive_429s RateLimiter.default) by (cbn; lia).
  split; [exact H | exact (record_rate_limit_window RateLimiter.default 5 H)].
Defined.

Lemma wait_for_slot_min_gap (s : limiter) (c : wait_clock) :
  min_gap (snd (wait_for_slot s c)) = min_gap s.
Proof. unfold wait_for_slot. by destruct (_ <=? _). Qed.

(** X3: along any sequence of limiter calls from a state with a
    non-negative counter, [min_gap] never changes, the counter stays
    non-negative, the backoff window ends between 60 and 300 seconds after
    the last [record_rate_limit] call, and without such a call the window is
    the initial one. *)
Theorem limiter_run_invariant (s : limiter) (ops : list op) :
  0 <= consecutive_429s s ->
  min_gap (run s ops) = min_gap s /\ 0 <= consecutive_429s (run s ops) /\
  (forall t, last_rate_limit_time ops = Some t ->
     t + 60 <= backoff_until (run s ops) <= t + 300) /\
  (last_rate_limit_time ops = None -> backoff_until (run s ops) = backoff_until s).
Proof.
  intros H0. induction ops as [|o ops IH] using rev_ind.
  - split; [reflexivity|]. split; [exact H0|]. split; [discriminate | reflexivity].
  - destruct IH as (Hg & Hc & Hb & Hn).
    rewrite run_app, last_rate_limit_time_app.
    destruct o as [c| |now|]; simpl.
    + destruct (wait_for_slot (run s ops) c) as [[b sl] s'] eqn:E. simpl.
      pose proof (wait_for_slot_backoff (run s ops) c) as [E1 E2].
      pose proof (wait_for_slot_min_gap (run s ops) c) as E3.
      rewrite E in E1, E2, E3. simpl in E1, E2, E3. rewrite E1, E2, E3. auto.
    + split; [exact Hg|]. split; [lia|]. auto.
    + unfold API_BACKOFF_BASE, API_BACKOFF_MAX.
      pose proof (pow2_pos (consecutive_429s (run s ops) + 1 - 1) ltac:(lia)).
      split; [exact Hg|]. split; [lia|]. split; [|discriminate].
      intros t Ht. injection Ht as <-. lia.
    + split; [exact Hg|]. split; [lia|]. auto.
Qed.

Lemma limiter_run_invariant_witness :
  0 <= consecutive_429s RateLimiter.default /\
  (min_gap (run RateLimiter.default [OpRateLimit 10; OpWait (mk_clock 20 21 70 71); OpReset]) =
     min_gap RateLimiter.default /\
   0 <= consecutive_429s (run RateLimiter.default
                            [OpRateLimit 10; OpWait (mk_clock 20 21 70 71); OpReset]) /\
   (forall t, last_rate_limit_time [OpRateLimit 10; OpWait (mk_clock 20 21 70 71); OpReset] = Some t ->
      t + 60 <= backoff_until (run RateLimiter.default
                                 [OpRateLimit 10; OpWait (mk_clock 20 21 70 71); OpReset]) <= t + 300) /\
   (last_rate_limit_time [OpRateLimit 10; OpWait (mk_clock 20 21 70 71); OpReset] = None ->
      backoff_until (run RateLimiter.default
                       [OpRateLimit 10; OpWait (mk_clock 20 21 70 71); OpReset]) =
      backoff_until RateLimiter.default)).
Proof.
  assert (H : 0 <= consecutive_429s RateLimiter.default) by (cbn; lia).
  split; [exact H | exact (limiter_run_invariant RateLimiter.default _ H)].
Defined.

Import Registry.

Lemma olarm_api_init_heap (d k n : string) (w : world) (a : olarm_api) (w' : world) :
  olarm_api_init d k n w = Py.Ok (a, w') ->
  (exists m, heap w' = heap w ++ replicate m RateLimiter.default) /\
  (forall key l, rate_limiters w !! key = Some l -> rate_limiters w' !! key = Some l).
Proof.
  unfold olarm_api_init. destruct (rate_limiters w !! k) as [l0|] eqn:Hk.
  - rewrite Hk. intros H. injection H as _ <-. split; [exists 0%nat; by rewrite app_nil_r | auto].
  - simpl. rewrite lookup_insert_eq. intros H. injection H as _ <-. simpl. split.
    + exists 1%nat. reflexivity.
    + intros key l Hl. rewrite lookup_insert_ne; [exact Hl|]. congruence.
Qed.

(** X4: constructing [OlarmApi] objects never replaces or resets a
    limiter: the limiters allocated before stay as they are, with their
    counters and backoff windows, every key registered before keeps its
    limiter, and each new limiter is a default [OlarmRateLimiter()]. *)
Theorem construct_all_keeps_limiters (reqs : list (string * string)) (w w' : world)
    (apis : list olarm_api) :
  construct_all reqs w = Py.Ok (apis, w') ->
  (exists m, heap w' = heap w ++ replicate m RateLimiter.default) /\
  (forall key l, rate_limiters w !! key = Some l -> rate_limiters w' !! key = Some l).
Proof.
  revert w apis. induction reqs as [|[d k] reqs IH]; intros w apis H; simpl in H.
  - injection H as _ <-. split; [exists 0%nat; by rewrite app_nil_r | auto].
  - destruct (olarm_api_init d k "Olarm Sensors" w) as [[a w1]|e] eqn:H1; [|discriminate].
    destruct (construct_all reqs w1) as [[apis' w2]|e] eqn:H2; [|discriminate].
    injection H as _ <-.
    destruct (olarm_api_init_heap _ _ _ _ _ _ H1) as [[m1 Hm1] Hr1].
    destruct (IH w1 apis' H2) as [[m2 Hm2] Hr2].
    split.
    + exists (m1 + m2)%nat. rewrite Hm2, Hm1, replicate_add, app_assoc. reflexivity.
    + intros key l Hl. apply Hr2, Hr1, Hl.
Qed.

Lemma construct_all_keeps_limiters_witness :
  construct_all [("dev1", "key1"); ("dev2", "key1"); ("dev3", "key2")] empty_world =
    Py.Ok (match construct_all [("dev1", "key1"); ("dev2", "key1"); ("dev3", "key2")] empty_world with
           | Py.Ok r => r | Py.Raise _ => ([], empty_world) end) /\
  (exists m, heap (match construct_all [("dev1", "key1"); ("dev2", "key1"); ("dev3", "key2")]
                          empty_world with Py.Ok r => r | Py.Raise _ => ([], empty_world) end).2 =
             heap empty_world ++ replicate m RateLimiter.default) /\
  (forall key l, rate_limiters empty_world !! key = Some l ->
     rate_limiters (match construct_all [("dev1", "key1"); ("dev2", "key1"); ("dev3", "key2")]
                          empty_world with Py.Ok r => r | Py.Raise _ => ([], empty_world) end).2
       !! key = Some l).
Proof.
  assert (H : construct_all [("dev1", "key1"); ("dev2", "key1"); ("dev3", "key2")] empty_world =
    Py.Ok (match construct_all [("dev1", "key1"); ("dev2", "key1"); ("dev3", "key2")] empty_world with
           | Py.Ok r => r | Py.Raise _ => ([], empty_world) end)) by reflexivity.
  split; [exact H|].
  destruct (match construct_all _ empty_world with Py.Ok r => r | Py.Raise _ => ([], empty_world) end)
    as [apis w'] eqn:E.
  exact (construct_all_keeps_limiters _ empty_world w' apis H).
Defined.

Import Py Http Readings.

Lemma assoc_set_other (kvs : list (string * json)) (k k' : string) (v : json) :
  k <> k' -> assoc (assoc_set kvs k v) k' = assoc kvs k'.
Proof.
  intros Hne. induction kvs as [|[k0 v0] kvs IH]; simpl.
  - destruct (String.eqb_spec k' k); [congruence | reflexivity].
  - destruct (String.eqb_spec k k0) as [->|Hk]; simpl.
    + destruct (String.eqb_spec k' k0); [congruence | reflexivity].
    + destruct (String.eqb k' k0); [reflexivity | exact IH].
Qed.

Lemma assoc_set_keys (kvs : list (string * json)) (k : string) (v : json) :
  map fst (assoc_set kvs k v) =
  if bool_decide (k ∈ map fst kvs) then map fst kvs else map fst kvs ++ [k].
Proof.
  induction kvs as [|[k0 v0] kvs IH]; simpl.
  - reflexivity.
  - destruct (String.eqb_spec k k0) as [->|Hk]; simpl.
    + rewrite bool_decide_true by (left). reflexivity.
    + rewrite IH. destruct (bool_decide (k ∈ map fst kvs)) eqn:E.
      * apply bool_decide_eq_true in E.
        rewrite bool_decide_true by (right; exact E). reflexivity.
      * apply bool_decide_eq_false in E.
        rewrite bool_decide_false; [reflexivity|].
        intros Hin. apply elem_of_cons in Hin as [Hin|Hin]; [congruence | exact (E Hin)].
Qed.

(** X5: when the limiter grants the slot and a status other than 429 comes
    with a JSON object, [get_device_json] returns that object with its
    ["error"] key set to [None] (kept in place, or appended) and every other
    key unchanged, clears the 429 counter and logs nothing. *)
Theorem get_device_json_object_reply (s : limiter) (c : wait_clock) (now : Z) (r : response)
    (kvs : list (string * json)) :
  (wait_for_slot s c).1.1 = true -> status r <> 429 -> response_json r = Ok (JObj kvs) ->
  exists kvs',
    get_device_json s c now (Reply r) = (Ok (JObj kvs'), record_success (wait_for_slot s c).2, []) /\
    assoc kvs' "error" = Some JNull /\
    (forall k, k <> "error" -> assoc kvs' k = assoc kvs k) /\
    map fst kvs' = (if bool_decide ("error" ∈ map fst kvs) then map fst kvs
                    else map fst kvs ++ ["error"]).
Proof.
  intros Hg H429 Hj. unfold get_device_json.
  destruct (wait_for_slot s c) as [[g sl] s1]. cbn [fst snd] in Hg |- *. subst g. cbn [negb].
  rewrite (proj2 (Z.eqb_neq _ _) H429), Hj. cbn [setitem].
  exists (assoc_set kvs "error" JNull). split; [reflexivity|].
  split; [apply assoc_set_same|]. split.
  - intros k Hk. apply assoc_set_other. congruence.
  - apply assoc_set_keys.
Qed.

Lemma get_device_json_object_reply_witness :
  (wait_for_slot RateLimiter.default Samples.sample_clock).1.1 = true /\ 200 <> 429 /\
  response_json (mk_response 200 true "{...}" (Some (JObj [("deviceName", JStr "Home")]))) =
    Ok (JObj [("deviceName", JStr "Home")]) /\
  exists kvs',
    get_device_json RateLimiter.default Samples.sample_clock 7
      (Reply (mk_response 200 true "{...}" (Some (JObj [("deviceName", JStr "Home")])))) =
      (Ok (JObj kvs'), record_success (wait_for_slot RateLimiter.default Samples.sample_clock).2, []) /\
    assoc kvs' "error" = Some JNull /\
    (forall k, k <> "error" -> assoc kvs' k = assoc [("deviceName", JStr "Home")] k) /\
    map fst kvs' = (if bool_decide ("error" ∈ map fst [("deviceName", JStr "Home")])
                    then map fst [("deviceName", JStr "Home")]
                    else map fst [("deviceName", JStr "Home")] ++ ["error"]).
Proof.
  assert (H1 : (wait_for_slot RateLimiter.default Samples.sample_clock).1.1 = true) by reflexivity.
  assert (H2 : 200 <> 429) by lia.
  assert (H3 : response_json (mk_response 200 true "{...}" (Some (JObj [("deviceName", JStr "Home")]))) =
    Ok (JObj [("deviceName", JStr "Home")])) by reflexivity.
  split; [exact H1|]. split; [exact H2|]. split; [exact H3|].
  exact (get_device_json_object_reply _ _ 7
    (mk_response 200 true "{...}" (Some (JObj [("deviceName", JStr "Home")]))) _ H1 H2 H3).
Defined.




(** X7: [send_action]'s effect on the limiter does not depend on
    [post_data], and neither does its result except on one path: when the
    slot was granted and a non-429 reply is not JSON, the log call reads
    [post_data["actionNum"]], so without that key the call raises the
    read's error there (after the 429 bookkeeping of the path). With the key
    present, or on any other path, the outcome is the one of [send_action]. *)
Theorem send_action_post_data (pd : json) (s : limiter) (c : wait_clock) (now : Z)
    (t : transport) :
  snd (Calls.send_action_with pd s c now t) = snd (send_action s c now t) /\
  (forall v, getitem pd "actionNum" = Ok v ->
     Calls.send_action_with pd s c now t = send_action s c now t) /\
  (~ (exists r, (wait_for_slot s c).1.1 = true /\ t = Reply r /\ status r <> 429 /\
        response_json r = Raise ContentTypeError) ->
     Calls.send_action_with pd s c now t = send_action s c now t) /\
  (forall r e, (wait_for_slot s c).1.1 = true -> t = Reply r -> status r <> 429 ->
     response_json r = Raise ContentTypeError -> getitem pd "actionNum" = Raise e ->
     fst (Calls.send_action_with pd s c now t) = Raise e).
Proof.
  unfold Calls.send_action_with, send_action.
  destruct (wait_for_slot s c) as [[g sl] s1]. cbn [fst snd].
  destruct g; cbn [negb].
  2:{ split; [reflexivity|]. split; [reflexivity|]. split; [reflexivity|].
      intros r e Hg. discriminate Hg. }
  destruct t as [m|r].
  { split; [reflexivity|]. split; [reflexivity|]. split; [reflexivity|].
    intros r e _ Ht. discriminate Ht. }
  destruct (Z.eqb_spec (status r) 429) as [H429|H429].
  { split; [reflexivity|]. split; [reflexivity|]. split; [reflexivity|].
    intros r' e _ Ht. injection Ht as <-. contradiction. }
  destruct (response_json r) as [resp|e0] eqn:Hj.
  { split; [reflexivity|]. split; [reflexivity|]. split; [reflexivity|].
    intros r' e _ Ht _ Hj'. injection Ht as <-. rewrite Hj in Hj'. discriminate. }
  destruct e0;
    try (split; [reflexivity|]; split; [reflexivity|]; split; [reflexivity|];
         intros r' e _ Ht _ Hj'; injection Ht as <-; rewrite Hj in Hj'; discriminate).
  split; [reflexivity|]. split.
  - intros v Hv. rewrite Hv. reflexivity.
  - split.
    + intros Hn. exfalso. apply Hn. exists r. auto.
    + intros r' e _ Ht _ _ He. injection Ht as <-. cbn [fst]. rewrite He. reflexivity.
Qed.

(** X8: [arm_area], [sleep_area], [stay_area] and [disarm_area] on any
    area, and [bypass_zone] on the [data] of a [BypassZone], behave exactly
    as [send_action]; [bypass_zone] and [bypass_zone_with_service] on a
    [zone.data] dict without ["zone_num"] raise [KeyError] before the
    limiter is consulted, leaving it unchanged. *)
Theorem action_wrappers (area : json) (zone : Z) (s : limiter) (c : wait_clock) (now : Z)
    (t : transport) :
  Calls.arm_area area s c now t = send_action s c now t /\
  Calls.sleep_area area s c now t = send_action s c now t /\
  Calls.stay_area area s c now t = send_action s c now t /\
  Calls.disarm_area area s c now t = send_action s c now t /\
  Calls.bypass_zone (Calls.bypass_zone_data zone) s c now t = send_action s c now t /\
  (forall kvs, assoc kvs "zone_num" = None ->
     Calls.bypass_zone (JObj kvs) s c now t = (Raise KeyError, s) /\
     Calls.bypass_zone_with_service (JObj kvs) s c now t = (Raise KeyError, s)).
Proof.
  pose proof (fun cmd => proj1 (proj2 (send_action_post_data (Calls.area_post cmd area) s c now t))
                area eq_refl) as Ha.
  split; [apply Ha|]. split; [apply Ha|]. split; [apply Ha|]. split; [apply Ha|].
  split.
  - change (Calls.bypass_zone (Calls.bypass_zone_data zone) s c now t) with
      (Calls.send_action_with (JObj [("actionCmd", JStr "zone-bypass"); ("actionNum", JInt zone)])
         s c now t).
    apply (proj1 (proj2 (send_action_post_data
      (JObj [("actionCmd", JStr "zone-bypass"); ("actionNum", JInt zone)]) s c now t)) (JInt zone) eq_refl).
  - intros kvs Hk. unfold Calls.bypass_zone_with_service, Calls.bypass_zone.
    cbn [getitem]. rewrite Hk. split; reflexivity.
Qed.

Import OtherApis.



Lemma run_versions_app (rd : json) (ts ts' : list transport) :
  run_versions rd (ts ++ ts') = run_versions (run_versions rd ts) ts'.
Proof. unfold run_versions. apply fold_left_app. Qed.

Lemma run_versions_no_json (rd : json) (ts : list transport) :
  (forall r, Reply r ∈ ts -> forall j, response_json r <> Ok j) -> run_versions rd ts = rd.
Proof.
  revert rd. induction ts as [|t ts IH]; intros rd H; [reflexivity|].
  unfold run_versions. cbn [fold_left].
  assert (E : snd (get_version rd t) = rd).
  { destruct t as [m|r]; [reflexivity|]. cbn [get_version].
    destruct (response_json r) as [j|e] eqn:Hj; [|reflexivity].
    exfalso. apply (H r ltac:(left) j Hj). }
  rewrite E. apply IH. intros r Hr. apply H. right. exact Hr.
Qed.

(** X10: the [release_data] an [OlarmUpdateAPI] holds after a series of
    [get_version] calls is the body of the last reply that decoded as JSON,
    or the initial ["Version 2.3.3"] record when none did; a connection
    failure returns that record, and a non-JSON reply raises
    [ContentTypeError] and keeps it. *)
Theorem get_version_release_data (ts : list transport) :
  ((forall r, Reply r ∈ ts -> forall j, response_json r <> Ok j) ->
     run_versions initial_release_data ts = initial_release_data) /\
  (forall pre r j post, ts = pre ++ Reply r :: post -> response_json r = Ok j ->
     (forall r', Reply r' ∈ post -> forall j', response_json r' <> Ok j') ->
     run_versions initial_release_data ts = j) /\
  (forall m, get_version (run_versions initial_release_data ts) (ConnectorError m) =
     (Ok (run_versions initial_release_data ts), run_versions initial_release_data ts)) /\
  (forall r, json_content_type r = false ->
     get_version (run_versions initial_release_data ts) (Reply r) =
     (Raise ContentTypeError, run_versions initial_release_data ts)).
Proof.
  split; [apply run_versions_no_json|]. split; [|split].
  - intros pre r j post -> Hj Hpost.
    rewrite run_versions_app. cbn [run_versions fold_left get_version]. rewrite Hj. cbn [snd].
    apply (run_versions_no_json j post Hpost).
  - intros m. reflexivity.
  - intros r Hr. cbn [get_version]. unfold response_json. rewrite Hr. reflexivity.
Qed.

Import Decoders.

Lemma range_snoc (k : Z) : 0 <= k -> range (k + 1) = range k ++ [k].
Proof.
  intros Hk. rewrite (range_split (k + 1) k) by lia.
  replace (k + 1 - k - 1) with 0 by lia. reflexivity.
Qed.

(** A list whose [j]-th element carries the number [j] is numbered
    [0, 1, ...]. *)
Lemma numbered_range {A} (f : A -> Z) (rs : list A) :
  (forall j r, rs !! j = Some r -> f r = Z.of_nat j) ->
  map f rs = range (Z.of_nat (length rs)).
Proof.
  induction rs as [|x rs IH] using rev_ind; intros H; [reflexivity|].
  rewrite map_app, length_app. cbn [length map].
  rewrite Nat2Z.inj_add, range_snoc by lia. cbn [Z.of_nat Pos.of_succ_nat].
  rewrite IH.
  - f_equal. f_equal. apply H. rewrite lookup_app_r by lia.
    rewrite Nat.sub_diag. reflexivity.
  - intros j r Hr. apply H. rewrite lookup_app_l; [exact Hr|].
    apply lookup_lt_Some in Hr. exact Hr.
Qed.

Lemma for_each_range_numbered {A} (body : Z -> result A) (f : A -> Z) (n : Z) :
  (forall i a, body i = Ok a -> f a = i) ->
  forall j r, (for_each body (range n) []).1 !! j = Some r -> f r = Z.of_nat j.
Proof.
  intros Hb j r Hr.
  destruct (for_each_prefix body (range n) []) as (rs & H1 & H2 & _).
  rewrite H1 in Hr. cbn [app] in Hr. destruct (H2 j r Hr) as (i & Hi & Hbi).
  apply range_lookup_inv in Hi. subst i. apply Hb, Hbi.
Qed.

Lemma power_loop_numbered (items : list (string * json)) (zone : Z) (acc : list sensor) :
  (forall j r, acc !! j = Some r -> s_zone_number r = Z.of_nat j) ->
  zone = Z.of_nat (length acc) ->
  forall j r, (power_loop items zone acc).1 !! j = Some r -> s_zone_number r = Z.of_nat j.
Proof.
  revert zone acc. induction items as [|[key value] items IH]; intros zone acc Hacc Hz; simpl.
  - exact Hacc.
  - destruct (int value) as [v|e]; [|exact Hacc].
    destruct (String.eqb key "Batt"); apply IH;
      (try (rewrite length_app; cbn [length]; lia));
      intros j r Hr; (destruct (decide (j < length acc)%nat) as [Hj|Hj];
        [rewrite lookup_app_l in Hr by exact Hj; apply Hacc, Hr
        | rewrite lookup_app_r in Hr by lia;
          destruct (j - length acc)%nat as [|k] eqn:Ek; [|cbn in Hr; try rewrite lookup_nil in Hr; discriminate Hr];
          injection Hr as <-; cbn; lia]).
Qed.

Lemma last_range (n : Z) (z : Z) : last (range n) = Some z -> 0 < n /\ z = n - 1.
Proof.
  intros H. destruct (Z_lt_le_dec 0 n) as [Hn|Hn].
  - replace n with ((n - 1) + 1) in H by lia. rewrite range_snoc in H by lia.
    rewrite last_snoc in H. injection H as <-. lia.
  - unfold range in H. rewrite seqZ_nil in H by lia. discriminate.
Qed.

(** X11: the records [get_sensor_states] and [get_sensor_bypass_states]
    return are numbered [0, 1, 2, ...] by their [zone_number], the power
    sensors continuing the zone numbering; this also holds for the partial
    list returned after a lookup error. *)
Theorem decoder_zone_numbering (zone_fmt bypass_fmt : Z -> result string) (devices_json : json) :
  (forall l, get_sensor_states zone_fmt devices_json = Ok l ->
     map s_zone_number l = range (Z.of_nat (length l))) /\
  (forall l, get_sensor_bypass_states bypass_fmt devices_json = Ok l ->
     map b_zone_number l = range (Z.of_nat (length l))).
Proof.
  split.
  - intros l H. unfold get_sensor_states in H.
    destruct (getitem devices_json "deviceState") as [st|]; cbn [bind] in H; [|discriminate].
    destruct (getitem devices_json "deviceProfile") as [prof|]; cbn [bind] in H; [|discriminate].
    apply return_partial_ok in H. subst l. apply numbered_range.
    unfold sensor_try.
    destruct (lim <- getitem prof "zonesLimit" ;; as_index lim) as [n|e].
    2:{ intros j r Hr. cbn in Hr. try rewrite lookup_nil in Hr. discriminate Hr. }
    assert (Hz : forall j r, (for_each (sensor_zone zone_fmt st prof) (range n) []).1 !! j = Some r ->
                   s_zone_number r = Z.of_nat j).
    { apply for_each_range_numbered. intros i a Ha. apply (sensor_zone_state _ _ _ _ _ Ha). }
    destruct (for_each_prefix (sensor_zone zone_fmt st prof) (range n) []) as (rs & _ & _ & H3).
    destruct (for_each (sensor_zone zone_fmt st prof) (range n) []) as [data err] eqn:Ef.
    cbn [fst snd] in Hz, H3.
    destruct err as [e|]; [exact Hz|].
    destruct (last (range n)) as [z|] eqn:El; [|exact Hz].
    destruct (power_items st) as [items|e]; [|exact Hz].
    apply power_loop_numbered; [exact Hz|].
    destruct (last_range n z El) as [Hn ->].
    destruct (for_each_prefix (sensor_zone zone_fmt st prof) (range n) []) as (rs' & H1' & _ & H3').
    rewrite Ef in H1', H3'. cbn [fst snd app] in H1', H3'. subst data.
    rewrite (H3' eq_refl), length_range. lia.
  - intros l H. unfold get_sensor_bypass_states in H.
    destruct (getitem devices_json "deviceState") as [st|]; cbn [bind] in H; [|discriminate].
    destruct (getitem devices_json "deviceProfile") as [prof|]; cbn [bind] in H; [|discriminate].
    apply return_partial_ok in H. subst l. apply numbered_range.
    destruct (lim <- getitem prof "zonesLimit" ;; as_index lim) as [n|e].
    2:{ intros j r Hr. cbn in Hr. try rewrite lookup_nil in Hr. discriminate Hr. }
    apply for_each_range_numbered. intros i a Ha. apply (bypass_zone_state _ _ _ _ _ Ha).
Qed.

Lemma ukey_config_some (dj labels limit state : json) :
  ukey_config dj = Ok (Some (labels, limit, state)) ->
  exists prof, getitem dj "deviceProfile" = Ok prof /\ getitem prof "ukeysLabels" = Ok labels /\
    getitem prof "ukeysLimit" = Ok limit /\ getitem prof "ukeysControl" = Ok state.
Proof.
  unfold ukey_config, catch.
  destruct (p <- getitem dj "deviceProfile" ;; _) as [x|e] eqn:E.
  2:{ case_bool_decide; discriminate. }
  intros Hx. injection Hx as ->.
  destruct (getitem dj "deviceProfile") as [p|] eqn:Ep; cbn [bind] in E; [|discriminate].
  inv_ok E; try discriminate E. injection E as <- <- <-.
  repeat match goal with H : (p' <- getitem dj "deviceProfile" ;; _) = Ok _ |- _ =>
    rewrite Ep in H; cbn [bind] in H end.
  exists p. auto.
Qed.

Lemma ukey_loop_ok (body : Z -> result ukey) (idx : list Z) (acc l : list ukey) :
  ukey_loop body idx acc = Ok l ->
  l = [] \/ exists us, l = acc ++ us /\ Forall2 (fun i u => body i = Ok u) idx us.
Proof.
  revert acc. induction idx as [|i idx IH]; intros acc H; simpl in H.
  - injection H as <-. right. exists []. rewrite app_nil_r. auto.
  - destruct (body i) as [u|[]] eqn:Eb; try discriminate.
    + destruct (IH _ H) as [-> | (us & -> & Hf)]; [left; reflexivity|].
      right. exists (u :: us). rewrite <- app_assoc. split; [reflexivity|]. constructor; assumption.
    + injection H as <-. left. reflexivity.
Qed.

Lemma ukey_body_spec (labels state : json) (i : Z) (u : ukey) :
  ukey_body labels state i = Ok u ->
  u_ukey_number u = i + 1 /\ exists x v, index state i = Ok x /\ int x = Ok v /\ u_state u = (v =? 1).
Proof.
  unfold ukey_body. intros H. inv_ok H. injection H as <-. cbn. split; [reflexivity|]. eauto.
Qed.

(** X12: [get_ukey_zones] is all or nothing: it returns either [] or one
    utility key for each index below [ukeysLimit], numbered 1, 2, ... in
    order, the key at position [j] being on exactly when
    [int(ukeysControl[j]) == 1]. *)
Theorem ukey_zones_all_or_nothing (devices_json : json) (l : list ukey) :
  get_ukey_zones devices_json = Ok l ->
  l = [] \/
  exists prof lim ctrl n, getitem devices_json "deviceProfile" = Ok prof /\
    getitem prof "ukeysLimit" = Ok lim /\ as_index lim = Ok n /\
    getitem prof "ukeysControl" = Ok ctrl /\
    map u_ukey_number l = map Z.succ (range n) /\
    (forall j u, l !! j = Some u ->
       exists x v, index ctrl (Z.of_nat j) = Ok x /\ int x = Ok v /\ u_state u = (v =? 1)).
Proof.
  unfold get_ukey_zones. intros H.
  destruct (ukey_config devices_json) as [cfg|e] eqn:Ec; cbn [bind] in H; [|discriminate].
  destruct cfg as [[[labels lim] ctrl]|]; [|injection H as <-; left; reflexivity].
  destruct (ukey_config_some _ _ _ _ Ec) as (prof & Hp & _ & Hl & Hs).
  unfold catch in H.
  destruct (n <- as_index lim ;; ukey_loop (ukey_body labels ctrl) (range n) []) as [l'|e] eqn:E.
  2:{ case_bool_decide; [injection H as <-; left; reflexivity | discriminate]. }
  injection H as ->.
  destruct (as_index lim) as [n|e] eqn:En; cbn [bind] in E; [|discriminate].
  destruct (ukey_loop_ok _ _ _ _ E) as [-> | (us & -> & Hf)]; [left; reflexivity|].
  right. exists prof, lim, ctrl, n. cbn [app].
  split; [exact Hp|]. split; [exact Hl|]. split; [exact En|]. split; [exact Hs|]. split.
  - clear -Hf. induction Hf as [|i u idx us Hb Hf IH]; [reflexivity|].
    cbn [map]. rewrite IH. f_equal. apply ukey_body_spec in Hb. lia.
  - intros j u Hu. destruct (Forall2_lookup_r _ _ _ _ _ Hf Hu) as (i & Hi & Hb).
    apply range_lookup_inv in Hi. subst i. apply ukey_body_spec in Hb. apply Hb.
Qed.

Lemma ukey_zones_all_or_nothing_witness :
  get_ukey_zones sample_ukey_device =
    Ok [mk_ukey (JStr "Lights") true 1; mk_ukey (JStr "Ukey 2") false 2] /\
  ([mk_ukey (JStr "Lights") true 1; mk_ukey (JStr "Ukey 2") false 2] = [] \/
   exists prof lim ctrl n, getitem sample_ukey_device "deviceProfile" = Ok prof /\
    getitem prof "ukeysLimit" = Ok lim /\ as_index lim = Ok n /\
    getitem prof "ukeysControl" = Ok ctrl /\
    map u_ukey_number [mk_ukey (JStr "Lights") true 1; mk_ukey (JStr "Ukey 2") false 2] =
      map Z.succ (range n) /\
    (forall j u, [mk_ukey (JStr "Lights") true 1; mk_ukey (JStr "Ukey 2") false 2] !! j = Some u ->
       exists x v, index ctrl (Z.of_nat j) = Ok x /\ int x = Ok v /\ u_state u = (v =? 1))).
Proof.
  assert (H : get_ukey_zones sample_ukey_device =
    Ok [mk_ukey (JStr "Lights") true 1; mk_ukey (JStr "Ukey 2") false 2]) by reflexivity.
  split; [exact H | exact (ukey_zones_all_or_nothing _ _ H)].
Defined.

Lemma panel_loop_total (body : Z -> result (option area)) (f : Z -> option area)
    (idx : list Z) (acc : list area) :
  (forall i, i ∈ idx -> body i = Ok (f i)) ->
  panel_loop body idx acc = Ok (acc ++ opt_values f idx).
Proof.
  revert acc. induction idx as [|i idx IH]; intros acc H; simpl.
  - rewrite app_nil_r. reflexivity.
  - rewrite (H i ltac:(left)). cbn [catch bind].
    destruct (f i) as [a|].
    + rewrite IH by (intros j Hj; apply H; right; exact Hj). rewrite <- app_assoc. reflexivity.
    + apply IH. intros j Hj. apply H. right. exact Hj.
Qed.

Lemma opt_values_app {A} (f : Z -> option A) (l1 l2 : list Z) :
  opt_values f (l1 ++ l2) = opt_values f l1 ++ opt_values f l2.
Proof.
  induction l1 as [|i l1 IH]; simpl; [reflexivity|].
  destruct (f i); rewrite IH; reflexivity.
Qed.

(** The indices below [k] that a loop keeps, when it keeps exactly the
    indices below [K]. *)
Lemma opt_values_prefix {A} (f : Z -> option A) (g : Z -> A) (K n : Z) :
  0 <= K ->
  (forall i, 0 <= i < K -> f i = Some (g i)) -> (forall i, K <= i -> f i = None) ->
  opt_values f (range n) = map g (range (Z.min n K)).
Proof.
  intros HK Hlt Hge. destruct (Z_lt_le_dec n 0) as [Hn|Hn].
  { unfold range. rewrite !seqZ_nil by lia. reflexivity. }
  pattern n. apply natlike_ind; [| |exact Hn].
  - unfold range. rewrite !seqZ_nil by lia. reflexivity.
  - intros m Hm IH. rewrite <- Z.add_1_r, range_snoc, opt_values_app, IH by lia. simpl.
    destruct (Z_lt_le_dec m K) as [HmK|HmK].
    + rewrite Hlt by lia. replace (Z.min (m + 1) K) with (Z.min m K + 1) by lia.
      rewrite range_snoc, map_app by lia. replace (Z.min m K) with m by lia. reflexivity.
    + rewrite Hge by lia. rewrite app_nil_r. f_equal. f_equal. lia.
Qed.

(** The record [get_panel_states] builds for area index [i]. *)
Lemma panel_area_spec (st_kvs : list (string * json)) (xs labs : list json) (i : Z) :
  assoc st_kvs "areas" = Some (JList xs) -> 0 <= i ->
  panel_area (JObj st_kvs) (JList labs) i =
  Ok (if i <? Z.of_nat (length xs)
      then Some (mk_area
                   (match labs !! Z.to_nat i with
                    | Some lab => if eq_str lab "" then "Area " +:+ pretty (i + 1) else str lab
                    | None => "Area " +:+ pretty (i + 1)
                    end)
                   (stdpp.option.default JNull (xs !! Z.to_nat i)) (i + 1))
      else None).
Proof.
  intros Ha Hi. unfold panel_area. cbn [is_list len bind].
  assert (Hname : forall nm : json,
    (if i <? Z.of_nat (length labs) then
       lab <- index (JList labs) i ;; Ok (negb (eq_str lab "")) else Ok false) = Ok (match labs !! Z.to_nat i with Some lab => negb (eq_str lab "") | None => false end)).
  { intros _. destruct (Z.ltb_spec i (Z.of_nat (length labs))) as [Hl|Hl].
    - rewrite index_list by exact Hi.
      destruct (labs !! Z.to_nat i) as [lab|] eqn:E; [reflexivity|].
      apply lookup_ge_None_1 in E. lia.
    - rewrite lookup_ge_None_2 by lia. reflexivity. }
  rewrite (Hname JNull). cbn [bind].
  destruct (labs !! Z.to_nat i) as [lab|] eqn:El.
  - destruct (eq_str lab "") eqn:Ee; cbn [negb bind].
    + cbn [get getitem]. rewrite Ha. cbn [bind len].
      destruct (Z.ltb_spec i (Z.of_nat (length xs))) as [Hx|Hx]; [|reflexivity].
      rewrite index_list by exact Hi.
      destruct (xs !! Z.to_nat i) as [x|] eqn:Ex; [reflexivity|].
      apply lookup_ge_None_1 in Ex. lia.
    + rewrite index_list, El by exact Hi. cbn [bind get getitem]. rewrite Ha. cbn [bind len].
      destruct (Z.ltb_spec i (Z.of_nat (length xs))) as [Hx|Hx]; [|reflexivity].
      rewrite index_list by exact Hi.
      destruct (xs !! Z.to_nat i) as [x|] eqn:Ex; [reflexivity|].
      apply lookup_ge_None_1 in Ex. lia.
  - cbn [negb bind get getitem]. rewrite Ha. cbn [bind len].
    destruct (Z.ltb_spec i (Z.of_nat (length xs))) as [Hx|Hx]; [|reflexivity].
    rewrite index_list by exact Hi.
    destruct (xs !! Z.to_nat i) as [x|] eqn:Ex; [reflexivity|].
    apply lookup_ge_None_1 in Ex. lia.
Qed.

(** X13: on a device whose [deviceState.areas] is a list [xs] and whose
    [areasLabels] is a list (or absent), [get_panel_states] returns one
    record per index below [min(areasLimit, len(xs))] (the limit defaulting
    to the number of labels), numbered 1, 2, ...; the record at [j] has the
    state [xs[j]] and the label [j] as its name, or ["Area j+1"] when there
    is no label or it is empty. *)
Theorem get_panel_states_decoding (devices_json : json) (st_kvs prof_kvs : list (string * json))
    (xs labs : list json) (n : Z) :
  getitem devices_json "deviceState" = Ok (JObj st_kvs) ->
  assoc st_kvs "areas" = Some (JList xs) ->
  getitem devices_json "deviceProfile" = Ok (JObj prof_kvs) ->
  (assoc prof_kvs "areasLabels" = Some (JList labs) \/
   (assoc prof_kvs "areasLabels" = None /\ labs = [])) ->
  (assoc prof_kvs "areasLimit" = Some (JInt n) \/
   (assoc prof_kvs "areasLimit" = None /\ n = Z.of_nat (length labs))) ->
  exists l, get_panel_states devices_json = Ok l /\
    map a_area_number l = map Z.succ (range (Z.min n (Z.of_nat (length xs)))) /\
    (forall j a, l !! j = Some a ->
       xs !! j = Some (a_state a) /\
       a_name a = match labs !! j with
                  | Some lab => if eq_str lab "" then "Area " +:+ pretty (Z.of_nat j + 1) else str lab
                  | None => "Area " +:+ pretty (Z.of_nat j + 1)
                  end).
Proof.
  intros Hst Ha Hprof Hlabs Hlim.
  set (g := fun i : Z => mk_area
             (match labs !! Z.to_nat i with
              | Some lab => if eq_str lab "" then "Area " +:+ pretty (i + 1) else str lab
              | None => "Area " +:+ pretty (i + 1)
              end)
             (stdpp.option.default JNull (xs !! Z.to_nat i)) (i + 1)).
  exists (map g (range (Z.min n (Z.of_nat (length xs))))).
  split.
  - unfold get_panel_states. rewrite Hst, Hprof. cbn [bind get].
    assert (El : (match assoc prof_kvs "areasLabels" with Some v => Ok v | None => Ok (JList []) end)
                 = Ok (JList labs)) by (destruct Hlabs as [-> | [-> ->]]; reflexivity).
    rewrite El. cbn [bind len].
    assert (En : (match assoc prof_kvs "areasLimit" with
                  | Some v => Ok v | None => Ok (JInt (Z.of_nat (length labs))) end) = Ok (JInt n))
      by (destruct Hlim as [-> | [-> ->]]; reflexivity).
    rewrite En. cbn [bind as_index].
    rewrite (panel_loop_total _ (fun i => if i <? Z.of_nat (length xs) then Some (g i) else None)).
    + cbn [app]. f_equal. apply opt_values_prefix; [lia| |].
      * intros i Hi. rewrite (proj2 (Z.ltb_lt _ _)) by lia. reflexivity.
      * intros i Hi. rewrite (proj2 (Z.ltb_ge _ _)) by lia. reflexivity.
    + intros i Hi. apply elem_of_range in Hi. rewrite (panel_area_spec st_kvs xs labs) by (exact Ha || lia).
      reflexivity.
  - split.
    + rewrite map_map. apply map_ext. intros i. reflexivity.
    + intros j a Hj. apply list_lookup_fmap_Some_1 in Hj. 
      destruct Hj as (i & -> & Hi).
      pose proof (range_lookup_inv _ _ _ Hi) as ->.
      apply lookup_lt_Some in Hi. rewrite length_range in Hi.
      cbn [g a_state a_name]. rewrite Nat2Z.id.
      destruct (xs !! j) as [x|] eqn:Ex; [split; reflexivity|].
      apply lookup_ge_None_1 in Ex. lia.
Qed.

Lemma get_panel_states_decoding_witness :
  exists l, get_panel_states sample_panel_device = Ok l /\ map a_area_number l = [1; 2].
Proof.
  destruct (get_panel_states_decoding sample_panel_device sample_panel_areas sample_panel_profile
              [JStr "arm"; JStr "disarm"] [JStr "House"; JStr ""] 3)
    as (l & H1 & H2 & _).
  - reflexivity.
  - reflexivity.
  - reflexivity.
  - left. reflexivity.
  - left. reflexivity.
  - exists l. split; [exact H1|]. rewrite H2. vm_compute. reflexivity.
Defined.

Import Readings2.

(** One test of the loop of [get_changed_by_json]: a selected change is one
    of the area with a later stamp; a change of the area that is passed over
    is not later than the current record. *)
Lemma selects_cases (area rd ch : json) (v : Z) (b : bool) :
  created rd = Ok v -> selects area rd ch = Ok b ->
  (b = true -> area_change area ch /\ exists w, created ch = Ok w /\ v < w) /\
  (b = false -> forall w, area_change area ch -> created ch = Ok w -> w <= v).
Proof.
  unfold created, selects. intros Hrd H.
  destruct (getitem ch "actionCmd") as [cmd|e] eqn:Hc; cbn [bind] in H; [|discriminate].
  destruct (existsb (eq_str cmd) skipped_cmds) eqn:Hs.
  { injection H as <-. split; [discriminate|].
    intros _ w (cmd' & num' & n' & Hc' & Hs' & _). rewrite Hc in Hc'. injection Hc' as <-.
    congruence. }
  destruct (getitem ch "actionNum") as [num|e] eqn:Hnum; cbn [bind] in H; [|discriminate].
  destruct (int num) as [n|e] eqn:Hn; cbn [bind] in H; [|discriminate].
  destruct (int area) as [a|e] eqn:Ha; cbn [bind] in H; [|discriminate].
  destruct (Z.eqb_spec n a) as [<-|Hne]; cbn [negb] in H.
  2:{ injection H as <-. split; [discriminate|].
      intros _ w (cmd' & num' & n' & _ & _ & Hnum' & Hn' & Ha'). rewrite Hnum in Hnum'.
      injection Hnum' as <-. congruence. }
  destruct (getitem rd "actionCreated") as [cur|e] eqn:Hcur; cbn [bind] in Hrd, H; [|discriminate].
  rewrite Hrd in H. cbn [bind] in H.
  destruct (getitem ch "actionCreated") as [cr|e] eqn:Hcr; cbn [bind] in H; [|discriminate].
  destruct (int cr) as [w|e] eqn:Hw; cbn [bind] in H; [|discriminate].
  injection H as <-. split.
  - intros Hb. apply Z.ltb_lt in Hb. split.
    + exists cmd, num, n. auto.
    + exists w. cbn [bind]. auto.
  - intros Hb w' _ Hw'. cbn [bind] in Hw'. rewrite Hw in Hw'.
    injection Hw' as <-. apply Z.ltb_ge in Hb. exact Hb.
Qed.

(** X14: when the loop of [get_changed_by_json] over [changes] completes,
    starting from a record whose [actionCreated] is [v0], the record it
    keeps has a stamp [v >= v0] that no change of the area in [changes] beats,
    and it is either the starting record or one of the changes of the area
    with a stamp above [v0]. *)
Theorem changed_loop_latest (area rd rd' : json) (changes : list json) (v0 : Z) :
  created rd = Ok v0 -> changed_loop area rd changes = Ok rd' ->
  exists v, created rd' = Ok v /\ v0 <= v /\
    (forall ch w, ch ∈ changes -> area_change area ch -> created ch = Ok w -> w <= v) /\
    (rd' = rd \/ (rd' ∈ changes /\ area_change area rd' /\ v0 < v)).
Proof.
  revert rd v0. induction changes as [|ch rest IH]; intros rd v0 Hrd H; simpl in H.
  - injection H as <-. exists v0. split; [exact Hrd|]. split; [lia|]. split; [|left; reflexivity].
    intros ch w Hin. inversion Hin.
  - destruct (selects area rd ch) as [b|e] eqn:Hs; cbn [bind] in H; [|discriminate].
    destruct (selects_cases area rd ch v0 b Hrd Hs) as [Ht Hf].
    destruct b.
    + destruct (Ht eq_refl) as [Hac (w & Hw & Hlt)].
      destruct (IH ch w Hw H) as (v & Hv & Hle & Hall & Hor).
      exists v. split; [exact Hv|]. split; [lia|]. split.
      * intros ch' w' Hin Hac' Hw'. apply elem_of_cons in Hin as [->|Hin].
        -- rewrite Hw in Hw'. injection Hw' as <-. exact Hle.
        -- exact (Hall ch' w' Hin Hac' Hw').
      * right. destruct Hor as [->|(Hin & Hac' & Hlt')].
        -- split; [left|]. split; [exact Hac|lia].
        -- split; [right; exact Hin|]. split; [exact Hac'|lia].
    + destruct (IH rd v0 Hrd H) as (v & Hv & Hle & Hall & Hor).
      exists v. split; [exact Hv|]. split; [exact Hle|]. split.
      * intros ch' w' Hin Hac' Hw'. apply elem_of_cons in Hin as [->|Hin].
        -- pose proof (Hf eq_refl w' Hac' Hw'). lia.
        -- exact (Hall ch' w' Hin Hac' Hw').
      * destruct Hor as [->|(Hin & Hac' & Hlt')]; [left; reflexivity|].
        right. split; [right; exact Hin|]. auto.
Qed.

Lemma changed_loop_latest_witness :
  exists v, created (JObj [("actionCmd", JStr "area-arm"); ("actionNum", JInt 1);
                           ("actionCreated", JInt 60); ("userFullname", JStr "B")]) = Ok v /\
            0 <= v.
Proof.
  destruct (changed_loop_latest (JInt 1) no_user
              (JObj [("actionCmd", JStr "area-arm"); ("actionNum", JInt 1);
                     ("actionCreated", JInt 60); ("userFullname", JStr "B")])
              (match sample_changes with JList l => l | _ => [] end) 0)
    as (v & Hv & Hle & _).
  - reflexivity.
  - vm_compute. reflexivity.
  - exists v. split; [exact Hv | exact Hle].
Defined.
